(** * Agdas: the per-drop least-squares engine of [classes.py]

    A shallow embedding of the class [Fall] (calibration setters,
    [computeLST], [LST], the derived-quantity methods) and of
    [estim.printResult], together with the properties the specification
    states about them.

    Conventions of the embedding.
    - Python [float] and numpy [float64] values are real numbers ([R]);
      the IEEE special values (inf, nan) that numpy produces on a division
      by zero are outside the model, so statements about quotients carry the
      nonzero side conditions the specification gives.
    - Python [int] is [Z] (the set and drop numbers of a record are taken
      to be integers); a one-dimensional [ndarray] is a [list R]; a
      two-dimensional one is a list of rows together with its column count.
    - An instance of [Fall] is its attribute dictionary, a finite map from
      attribute names to values; the methods live in the class and are found
      only when the instance dictionary has no entry of that name.
    - A raised exception is the [Raise] branch of [result]; the state an
      object is left in after an exception is not modelled.
    - [numpy.linalg.lstsq] and the matrix inverse [.I] are library code:
      they are parameters of the development. *)

From Stdlib Require Import Reals Lra Lia ZArith.
From stdpp Require Import gmap strings list.

Local Open Scope R_scope.

(** ** Python: exceptions, slices, [round] *)

Module Py.

Inductive exn : Set :=
  | AttributeError
  | TypeError
  | IndexError
  | ValueError
  | ZeroDivisionError
  | LinAlgError.

Inductive result (A : Type) : Type :=
  | Ok (a : A)
  | Raise (e : exn).
Global Arguments Ok {A} a.
Global Arguments Raise {A} e.

Global Instance result_ret : MRet result := λ A a, Ok a.
Global Instance result_bind : MBind result := λ A B f m,
  match m with
  | Ok a => f a
  | Raise e => Raise e
  end.

(** [l[i]] for a non-negative index. *)
Definition item {A} (l : list A) (i : nat) : result A :=
  match l !! i with
  | Some a => Ok a
  | None => Raise IndexError
  end.

(** The position a slice bound [i] denotes in a sequence of length [len]:
    negative bounds count from the end, and every bound is clamped. *)
Definition slice_index (len i : Z) : Z :=
  if (i <? 0)%Z then Z.max 0 (i + len) else Z.min i len.

(** [l[lo:hi]] *)
Definition slice {A} (lo hi : Z) (l : list A) : list A :=
  let len := Z.of_nat (length l) in
  let a := slice_index len lo in
  let b := slice_index len hi in
  take (Z.to_nat (b - a)) (drop (Z.to_nat a) l).

(** Nearest integer, ties to the even one. *)
Definition rint (x : R) : Z :=
  let f := Zfloor x in
  if Rlt_dec (x - IZR f) (1 / 2) then f
  else if Rlt_dec (1 / 2) (x - IZR f) then (f + 1)%Z
  else if Z.even f then f else (f + 1)%Z.

(** [round(x, ndigits)] for [ndigits >= 0]. *)
Definition round (x : R) (ndigits : nat) : R :=
  IZR (rint (x * 10 ^ ndigits)) / 10 ^ ndigits.

End Py.
Import Py.

(** ** numpy: the array operations the class uses *)

Module Np.

(** A two-dimensional array: [shape1] is [A.shape[1]], the rows are the
    entries along axis 0 (so [A.shape[0]] is [length (rows A)]). *)
Record ndarray2 : Type := Array2 { shape1 : nat; rows : list (list R) }.

Definition shape0 (A : ndarray2) : nat := length (rows A).

(** [np.dot(u, v)] of two vectors. *)
Definition dot (u v : list R) : R :=
  foldr Rplus 0 (zip_with Rmult u v).

(** Element-wise binary operation on two one-dimensional arrays with
    numpy's broadcasting: equal lengths, or one of them of length one. *)
Definition broadcast (f : R → R → R) (u v : list R) : result (list R) :=
  if decide (length u = length v) then Ok (zip_with f u v)
  else match u, v with
       | _, [b] => Ok (map (λ a, f a b) u)
       | [a], _ => Ok (map (λ b, f a b) v)
       | _, _ => Raise ValueError
       end.

Definition multiply := broadcast Rmult.
Definition subtract := broadcast Rminus.

(** [A[:, j]] *)
Definition col (j : nat) (A : ndarray2) : list R :=
  map (λ r, nth j r 0) (rows A).

(** [A.T] *)
Definition T (A : ndarray2) : ndarray2 :=
  {| shape1 := shape0 A; rows := map (λ j, col j A) (seq 0 (shape1 A)) |}.

(** [np.dot(A, B)] of two matrices. *)
Definition dot2 (A B : ndarray2) : result ndarray2 :=
  if decide (shape1 A = shape0 B)
  then Ok {| shape1 := shape1 B;
             rows := map (λ r, map (λ j, dot r (col j B)) (seq 0 (shape1 B)))
                         (rows A) |}
  else Raise ValueError.

(** [np.matmul(A, x)] of a matrix and a vector. *)
Definition matmul (A : ndarray2) (x : list R) : result (list R) :=
  if decide (shape1 A = length x)
  then Ok (map (λ r, dot r x) (rows A))
  else Raise ValueError.

(** [np.diag(C)] of a matrix: its main diagonal. *)
Definition diag (C : ndarray2) : list R :=
  imap (λ i r, nth i r 0) (take (shape1 C) (rows C)).

(** [A[lo:hi, :]] *)
Definition slice_rows (lo hi : Z) (A : ndarray2) : ndarray2 :=
  {| shape1 := shape1 A; rows := slice lo hi (rows A) |}.

(** [A[:, :n]] *)
Definition take_cols (n : nat) (A : ndarray2) : ndarray2 :=
  {| shape1 := Nat.min n (shape1 A); rows := map (take n) (rows A) |}.

(** [A[:, n:]] *)
Definition drop_cols (n : nat) (A : ndarray2) : ndarray2 :=
  {| shape1 := shape1 A - n; rows := map (drop n) (rows A) |}.

(** [A[:, j] = v] for a list [v] with one entry per row. *)
Definition set_col (j : nat) (v : list R) (A : ndarray2) : result ndarray2 :=
  if decide (length v = shape0 A)
  then Ok {| shape1 := shape1 A;
             rows := zip_with (λ r a, <[j:=a]> r) (rows A) v |}
  else Raise ValueError.

(** The value of [np.linalg.lstsq(A, z, rcond=None)] for a vector [z]:
    the solution and the array of residual sums ([x[0]] and [x[1]] in the
    source); the rank and the singular values are never read. *)
Record lstsq_result : Type := Lstsq { sol : list R; residuals : list R }.

End Np.
Import Np.

(** ** The class [Fall] *)

(** What an attribute of a [Fall] instance can hold. *)
Inductive value : Type :=
  | VFloat (r : R)
  | VInt (z : Z)
  | VArray (v : list R)
  | VLstsq (x : lstsq_result)
  | VKeys (l : list string).

(** The instance dictionary. *)
Abbreviation Fall := (gmap string value).

(** The names the class itself defines. *)
Definition Fall_methods : list string :=
  ["setFringe"; "setLambda"; "setScaleFactor"; "setMultiplex"; "setGradient";
   "setModulFreq"; "setLpar"; "setRubiFreq"; "setFrRange"; "setFRssRange";
   "computeLST"; "LST"; "effectiveHeight"; "effectiveHeightTop";
   "effectivePosition"; "gTop"; "gTopCor"].

(** The outcome of [self.name]: the instance dictionary is searched first,
    the class second. *)
Inductive attr : Type :=
  | Data (v : value)
  | Method (name : string).

Definition getattr (self : Fall) (name : string) : result attr :=
  match self !! name with
  | Some v => Ok (Data v)
  | None =>
      if decide (name ∈ Fall_methods) then Ok (Method name)
      else Raise AttributeError
  end.

(** [self.name] used as a number in float arithmetic. *)
Definition float_attr (self : Fall) (name : string) : result R :=
  a ← getattr self name;
  match a with
  | Data (VFloat r) => Ok r
  | Data (VInt z) => Ok (IZR z)
  | _ => Raise TypeError
  end.

(** [self.name] used as a slice bound or in integer arithmetic. *)
Definition int_attr (self : Fall) (name : string) : result Z :=
  a ← getattr self name;
  match a with
  | Data (VInt z) => Ok z
  | _ => Raise TypeError
  end.

(** [self.name] used as an array. *)
Definition array_attr (self : Fall) (name : string) : result (list R) :=
  a ← getattr self name;
  match a with
  | Data (VArray v) => Ok v
  | _ => Raise TypeError
  end.

(** [self.name(...)]: the attribute is looked up and then called with the
    body [m] of the method; a number that shadows the method is not
    callable. *)
Definition call {A} (self : Fall) (name : string) (m : Fall → result A)
  : result A :=
  a ← getattr self name;
  match a with
  | Method _ => m self
  | Data _ => Raise TypeError
  end.

Global Instance R_eq_dec : EqDecision R := Req_dec_T.

(** [__init__] *)
Definition init : Fall :=
  <["keys" := VKeys ["z0"; "v0"; "g0"; "a1"; "a2"; "a3"; "a4"; "a5"; "a6"]]>
    (<["c" := VFloat 2.99792458e+17]> (<["ksol" := VInt 1]> ∅)).

Definition setFringe (self : Fall) (times : list R) : Fall :=
  <["fringe" := VArray times]> self.

Definition setLambda (self : Fall) (Lambda : R) : Fall :=
  <["Lambda" := VFloat Lambda]> self.

Definition setScaleFactor (self : Fall) (scaleFactor : R) : Fall :=
  <["scaleFactor" := VFloat scaleFactor]> self.

Definition setMultiplex (self : Fall) (multiplex : R) : Fall :=
  <["multiplex" := VFloat multiplex]> self.

Definition setGradient (self : Fall) (grad : R) : Fall :=
  <["gradient" := VFloat (-100 * grad * 1e-8)]> self.

Definition setModulFreq (self : Fall) (fmod : R) : Fall :=
  <["fmod" := VFloat fmod]> self.

Definition setLpar (self : Fall) (Lpar : R) : Fall :=
  <["Lpar" := VFloat Lpar]> self.

Definition setRubiFreq (self : Fall) (freq : R) : Fall :=
  <["rubiFreq" := VFloat freq]> self.

Definition setFrRange (self : Fall) (frmin frmax : Z) : Fall :=
  <["frmax" := VInt frmax]> (<["frmin" := VInt (frmin - 1)]> self).

Definition setFRssRange (self : Fall) (frmaxss frminss : Z) : Fall :=
  <["frminss" := VInt (frminss - 1)]> (<["frmaxss" := VInt frmaxss]> self).

(** What [computeLST] returns: [x, covar, m02, std, stdX, res]. *)
Record LST_out : Type := LSTOut {
  out_x : lstsq_result;
  out_covar : ndarray2;
  out_m02 : list R;
  out_std : R;
  out_stdX : list R;
  out_res : list R
}.

(** One pass of the loop of [LST] over the fringes: the entries it writes
    at index [i] of [z1], [self.tt], [A_grad1], [A1] and [A4] (column 2 of
    [A4] keeps the zero it was created with). *)
Record fringe_row : Type := FringeRow {
  z1_i : R;
  tt_i : R;
  line_grad : list R;
  line : list R;
  A4_i : list R
}.

Definition LST_fringe (self : Fall) (i : nat) : result fringe_row :=
  Lambda ← float_attr self "Lambda";
  multiplex ← float_attr self "multiplex";
  scaleFactor ← float_attr self "scaleFactor";
  let z1 := Lambda / 2 * INR i * multiplex * scaleFactor in
  fringe ← array_attr self "fringe";
  f ← item fringe i;
  rubiFreq ← float_attr self "rubiFreq";
  q ← (if decide (rubiFreq = 0) then Raise ZeroDivisionError
       else Ok (1e7 / rubiFreq));
  ksol ← float_attr self "ksol";
  c ← float_attr self "c";
  let tt := f * q + ksol * z1 / c in
  fmod ← float_attr self "fmod";
  let arg1 := 2 * PI * fmod * tt in
  let arg2 := 2 * PI * fmod * 2 * z1 / c in
  let z_z0 := 1 in
  gradient ← float_attr self "gradient";
  let z_v0_grad := tt + (gradient / 6) * tt ^ 3 in
  let z_g0_grad := (tt ^ 2) / 2 + (gradient / 24) * tt ^ 4 in
  let z_v0 := tt in
  let z_g0 := (tt ^ 2) / 2 in
  let z_a1 := sin arg1 * cos arg2 in
  let z_a2 := cos arg1 * cos arg2 in
  let z_a3 := sin arg1 * sin arg2 in
  let z_a4 := cos arg1 * sin arg2 in
  Lpar ← float_attr self "Lpar";
  let z_a5 := sin (2 * PI * z1 / Lpar) in
  let z_a6 := cos (2 * PI * z1 / Lpar) in
  Ok {| z1_i := z1;
        tt_i := tt;
        line_grad :=
          [z_z0; z_v0_grad; z_g0_grad; z_a3; z_a1; z_a4; z_a2; z_a5; z_a6];
        line := [z_z0; z_v0; z_g0; z_a3; z_a1; z_a4; z_a2; z_a5; z_a6];
        A4_i := [1; tt; 0; z_a5; z_a6] |}.

(** The loop [for i in range(0, nfringe)]. *)
Definition LST_loop (self : Fall) : result (list fringe_row) :=
  fringe ← array_attr self "fringe";
  mapM (LST_fringe self) (seq 0 (length fringe)).

(** The full-range arrays the loop leaves behind. *)
Definition z1_of (rs : list fringe_row) : list R := map z1_i rs.
Definition tt_of (rs : list fringe_row) : list R := map tt_i rs.
Definition A_grad1_of (rs : list fringe_row) : ndarray2 :=
  Array2 9 (map line_grad rs).
Definition A1_of (rs : list fringe_row) : ndarray2 := Array2 9 (map line rs).
Definition A4_of (rs : list fringe_row) : ndarray2 := Array2 5 (map A4_i rs).

(** The drop-acceptance value: [ress] and [self.ssres]. *)
Definition LST_ssres (res_grad1 : list R) (frminss frmaxss : Z) : R :=
  let ress := slice frminss frmaxss res_grad1 in
  sqrt (dot ress ress / IZR (frmaxss - frminss + 1)).

(** The inputs of the solve with modulation: column 2 of [A4] and
    [zgrad], from the two solutions [x[0]] and [self.x_grad[0]]. *)
Definition LST_modulation (self : Fall) (rs : list fringe_row)
    (x x_grad : list R) : result (ndarray2 * list R) :=
  col2 ← mapM (λ r,
            x1 ← item x 1;
            x2 ← item x 2;
            xg2 ← item x_grad 2;
            gradient ← float_attr self "gradient";
            Ok ((x1 / 6 * tt_i r ^ 3 + x2 / 24 * tt_i r ^ 4
                 - (x2 - xg2) * tt_i r ^ 2 / (gradient * 2)) / 1e6)) rs;
  A4 ← set_col 2 col2 (A4_of rs);
  zgrad ← mapM (λ r, x2 ← item x 2; Ok (z1_i r - x2 / 2 * tt_i r ^ 2)) rs;
  modkor ← matmul (drop_cols 3 (A_grad1_of rs)) (drop 3 x);
  zgrad ← subtract zgrad modkor;
  Ok (A4, zgrad).

Section Solver.

(** [np.linalg.lstsq(A, z, rcond=None)] and [np.matrix(M).I]. *)
Variable lstsq : ndarray2 → list R → result lstsq_result.
Variable matrix_I : ndarray2 → result ndarray2.

Definition computeLST (self : Fall) (A : ndarray2) (z : list R)
  : result LST_out :=
  x ← lstsq A z;
  AtA ← dot2 (T A) A;
  covar ← matrix_I AtA;
  frmax ← int_attr self "frmax";
  frmin ← int_attr self "frmin";
  let m02 :=
    map (λ r, r / IZR (frmax - frmin - Z.of_nat (shape1 A) - 1))
        (residuals x) in
  p ← multiply (diag covar) m02;
  let stdX := map sqrt p in
  let std := dot stdX stdX in
  Ax ← matmul A (sol x);
  res ← subtract z Ax;
  Ok {| out_x := x; out_covar := covar; out_m02 := m02; out_std := std;
        out_stdX := stdX; out_res := res |}.

Definition LST (self : Fall) : result Fall :=
  rs ← LST_loop self;
  let self := <["tt" := VArray (tt_of rs)]> self in
  let z1 := z1_of rs in
  let A_grad1 := A_grad1_of rs in
  let A1 := A1_of rs in
  frmin ← int_attr self "frmin";
  frmax ← int_attr self "frmax";
  let A_grad := slice_rows frmin frmax A_grad1 in
  let A := slice_rows frmin frmax A1 in
  let z := slice frmin frmax z1 in
  let A2 := take_cols 7 A in
  o ← computeLST self A z;
  let x := out_x o in
  let self := <["stdX" := VArray (out_stdX o)]>
                (<["std" := VFloat (out_std o)]>
                   (<["m02" := VArray (out_m02 o)]> self)) in
  og ← computeLST self A_grad z;
  let x_grad := out_x og in
  let self := <["std_grad" := VArray (out_stdX og)]>
                (<["m02_grad" := VArray (out_m02 og)]>
                   (<["x_grad" := VLstsq x_grad]> self)) in
  oe ← computeLST self A2 z;
  let self := <["xef" := VLstsq (out_x oe)]> self in
  Agx ← matmul A_grad1 (sol x_grad);
  res_grad1 ← subtract z1 Agx;
  let self := <["res_grad1" := VArray res_grad1]> self in
  frminss ← int_attr self "frminss";
  frmaxss ← int_attr self "frmaxss";
  let ssres := LST_ssres res_grad1 frminss frmaxss in
  let self := <["ssres" := VFloat ssres]> self in
  '(A4, zgrad) ← LST_modulation self rs (sol x) (sol x_grad);
  let AA4 := slice_rows frmin frmax A4 in
  let zgrad4 := slice frmin frmax zgrad in
  o4 ← computeLST self AA4 zgrad4;
  let self := <["Resgrad4" := VArray (out_res o4)]>
                (<["m0grad4" := VArray (out_m02 o4)]>
                   (<["xgrad4" := VLstsq (out_x o4)]> self)) in
  A4x ← matmul A4 (sol (out_x o4));
  resgrad4 ← subtract zgrad A4x;
  let self := <["resgrad4" := VArray resgrad4]> self in
  g0_Gr ← item (sol x_grad) 2;
  z0 ← item (sol x) 0;
  v0 ← item (sol x) 1;
  g0 ← item (sol x) 2;
  Ok (<["g0" := VFloat g0]>
        (<["v0" := VFloat v0]>
           (<["z0" := VFloat z0]>
              (<["g0_Gr" := VFloat g0_Gr]> self)))).

End Solver.

(** ** Derived quantities *)

Definition effectiveHeight (self : Fall) : result Fall :=
  g0_Gr ← float_attr self "g0_Gr";
  g0 ← float_attr self "g0";
  gradient ← float_attr self "gradient";
  Ok (<["h" := VFloat ((- (g0_Gr - g0)) / gradient)]> self).

Definition effectiveHeightTop (self : Fall) : result Fall :=
  v0 ← float_attr self "v0";
  g0_Gr ← float_attr self "g0_Gr";
  let self := <["Grad" := VFloat (v0 ^ 2 / (2 * g0_Gr))]> self in
  h ← float_attr self "h";
  Grad ← float_attr self "Grad";
  Ok (<["htop" := VFloat (h + Grad)]> self).

Definition effectivePosition (self : Fall) : result Fall :=
  h ← float_attr self "h";
  z0 ← float_attr self "z0";
  Ok (<["effectiveZ" := VFloat (h + z0)]> self).

Definition gTop (self : Fall) : result Fall :=
  g0_Gr ← float_attr self "g0_Gr";
  gradient ← float_attr self "gradient";
  Grad ← float_attr self "Grad";
  Ok (<["gTop" := VFloat (g0_Gr - gradient * Grad)]> self).

Definition gTopCor (tide load baro polar : R) (self : Fall) : result Fall :=
  g ← float_attr self "gTop";
  Ok (<["gTopCor" :=
          VFloat (g + 10 * tide + 10 * load + 10 * baro + 10 * polar)]>
        self).

(** The five calls [f.effectiveHeight(); f.effectiveHeightTop();
    f.effectivePosition(); f.gTop(); f.gTopCor(tide, load, baro, polar)]
    on one instance. *)
Definition derived_quantities (tide load baro polar : R) (self : Fall)
  : result Fall :=
  self ← call self "effectiveHeight" effectiveHeight;
  self ← call self "effectiveHeightTop" effectiveHeightTop;
  self ← call self "effectivePosition" effectivePosition;
  self ← call self "gTop" gTop;
  call self "gTopCor" (gTopCor tide load baro polar).

(** ** The class [estim] *)

(** An entry of the row handed to the csv writer. *)
Inductive cell : Type :=
  | CInt (z : Z)
  | CFloat (r : R).

Definition cell_float (c : cell) : R :=
  match c with
  | CInt z => IZR z
  | CFloat r => r
  end.

(** [l[i] = round(l[i] * scale, ndigits)] *)
Definition round_item (i : nat) (scale : R) (ndigits : nat) (l : list cell)
  : result (list cell) :=
  c ← item l i;
  Ok (<[i := CFloat (round (cell_float c * scale) ndigits)]> l).

(** [l[i] = round(l[i], ndigits)] *)
Definition round_item_unscaled (i : nat) (ndigits : nat) (l : list cell)
  : result (list cell) :=
  c ← item l i;
  Ok (<[i := CFloat (round (cell_float c) ndigits)]> l).

(** [printResult]: the value is the row written to the file. *)
Definition printResult (X std : list R) (set drop : Z) (m0 : list R)
  : result (list cell) :=
  m00 ← item m0 0;
  pairs ← mapM (λ i, x ← item X i; s ← item std i;
                     Ok [CFloat x; CFloat s]) (seq 0 (length X));
  let dropResult := [CInt set; CInt drop; CFloat m00] ++ concat pairs in
  dropResult ← round_item 3 1e-6 4 dropResult;
  dropResult ← round_item 4 1e-6 14 dropResult;
  dropResult ← round_item 5 1e-6 4 dropResult;
  dropResult ← round_item 6 1e-6 15 dropResult;
  dropResult ← round_item_unscaled 8 3 dropResult;
  Ok dropResult.

(** ** The specification's wording, and worked inputs *)

(** Columns 4 to 7 of a design-matrix row in the order the specification
    gives them. *)
Definition spec_periodic_columns (fmod c t z : R) : list R :=
  let phi1 := 2 * PI * fmod * t in
  let phi2 := 2 * PI * fmod * 2 * z / c in
  [sin phi1 * cos phi2; cos phi1 * cos phi2;
   cos phi1 * sin phi2; sin phi1 * sin phi2].

(** A drop with a single fringe read at one clock tick, a 10 MHz clock and
    a modulation frequency of a quarter: the first fringe has position 0
    and time 1, so the modulation angles are pi/2 and 0. *)
Definition drop_quarter : Fall :=
  setRubiFreq
    (setLpar
       (setModulFreq
          (setGradient
             (setMultiplex
                (setScaleFactor (setLambda (setFringe init [1]) 1) 1) 1)
             3)
          (1 / 4))
       1)
    1e7.

(** Least squares with a single unknown, as [lstsq] answers for a
    one-column matrix of rank one: x = (a.z)/(a.a), and the residual sum is
    reported only when the matrix has more rows than columns. *)
Definition lstsq_1col (A : ndarray2) (z : list R) : result lstsq_result :=
  let a := col 0 A in
  let x := dot a z / dot a a in
  let r := zip_with Rminus z (map (λ ai, ai * x) a) in
  Ok {| sol := [x];
        residuals := if decide (1 < shape0 A)%nat then [dot r r] else [] |}.

(** The inverse of a 1 x 1 matrix. *)
Definition matrix_I_1x1 (M : ndarray2) : result ndarray2 :=
  match rows M with
  | [[m]] => if decide (m = 0) then Raise LinAlgError
             else Ok (Array2 1 [[/ m]])
  | _ => Raise LinAlgError
  end.

(** Three observations 1, 2, 3 of a constant: the fit range 1..3 holds
    three rows for one unknown. *)
Definition ones3 : ndarray2 := Array2 1 [[1]; [1]; [1]].
Definition fit_1_3 : Fall := setFrRange init 1 3.

(** Two observations 1, 2 of a constant: rows minus columns minus one is
    zero. *)
Definition ones2 : ndarray2 := Array2 1 [[1]; [1]].
Definition fit_1_2 : Fall := setFrRange init 1 2.

(** One observation 4 of an unknown with coefficient 2: rows minus
    columns minus one is -1. *)
Definition two1 : ndarray2 := Array2 1 [[2]].
Definition fit_1_1 : Fall := setFrRange init 1 1.

(** A fitted drop with the specification's literal fixture for the
    derived quantities: g0 = 9800000000, g0_apex = 9800000500 and
    gradient = -3000, which [setGradient] stores for the argument 3e9
    (-100 * 3e9 * 1e-8). *)
Definition fitted_fixture : Fall :=
  <["g0" := VFloat 9800000000]>
    (<["v0" := VFloat 140000]>
       (<["z0" := VFloat 12]>
          (<["g0_Gr" := VFloat 9800000500]> (setGradient init 3e9)))).

(** The fitted fixture after [effectiveHeightTop] has stored an apex
    offset. *)
Definition fixture_with_Grad : Fall := <["Grad" := VFloat 1]> fitted_fixture.

(** The root-mean-square of a residual vector, in the specification's
    words: the square root of the sum of squares over the count. *)
Definition spec_rms (ress : list R) : R :=
  sqrt (dot ress ress / INR (length ress)).

(** ** Further worked inputs *)

(** [drop_quarter] with the clock frequency set to zero. *)
Definition drop_no_clock : Fall := setRubiFreq drop_quarter 0.

(** Two observations of two unknowns, one each: as many rows as columns. *)
Definition eye2 : ndarray2 := Array2 2 [[1; 0]; [0; 1]].

(** Least squares for a square diagonal system with nonzero diagonal, as
    [lstsq] answers it: x[i] = z[i] / a[i][i], and no residual sum because
    the matrix has no more rows than columns. *)
Definition lstsq_diag (A : ndarray2) (z : list R) : result lstsq_result :=
  Ok {| sol := zip_with Rdiv z (diag A); residuals := [] |}.

(** The inverse of a diagonal matrix with nonzero diagonal. *)
Definition matrix_I_diag (M : ndarray2) : result ndarray2 :=
  Ok {| shape1 := shape1 M;
        rows := imap (λ i r, <[i := / nth i r 0]> r) (rows M) |}.

(** Stand-ins for the solver in runs of the whole fit: a solver that
    answers the zero vector (with the residual sum z.z that goes with it)
    and an inverse that answers its argument.  They serve only to run [LST]
    to its end on a small drop; the properties of [LST] hold for every
    solver. *)
Definition lstsq_zero (A : ndarray2) (z : list R) : result lstsq_result :=
  Ok {| sol := repeat 0 (shape1 A); residuals := [dot z z] |}.

Definition matrix_I_same (M : ndarray2) : result ndarray2 := Ok M.

(** [drop_quarter] with both ranges set to its single fringe. *)
Definition drop_ranged : Fall :=
  setFRssRange (setFrRange drop_quarter 1 1) 1 1.

(** ** [functions.py] *)

Global Instance Rlt_decision (x y : R) : Decision (x < y) := Rlt_dec x y.

(** [l[i]] and [l[i] = a] for a Python integer index: a negative index
    counts from the end. *)
Definition py_position (len : nat) (i : Z) : option nat :=
  let k := if (i <? 0)%Z then (i + Z.of_nat len)%Z else i in
  if decide (0 ≤ k < Z.of_nat len)%Z then Some (Z.to_nat k) else None.

Definition py_getitem {A} (l : list A) (i : Z) : result A :=
  match py_position (length l) i with
  | Some k => item l k
  | None => Raise IndexError
  end.

Definition py_setitem {A} (l : list A) (i : Z) (a : A) : result (list A) :=
  match py_position (length l) i with
  | Some k => Ok (<[k := a]> l)
  | None => Raise IndexError
  end.

(** [range(lo, hi)] *)
Definition py_range (lo hi : Z) : list Z :=
  map (λ k, (lo + Z.of_nat k)%Z) (seq 0 (Z.to_nat (hi - lo))).

(** [np.mean] of a one-dimensional sequence. *)
Definition mean (l : list R) : R := foldr Rplus 0 l / INR (length l).

(** [math.trunc]: rounding toward zero. *)
Definition trunc (x : R) : Z := if decide (x < 0) then Zceil x else Zfloor x.

(** [date_to_mjd(year, month, day)] *)
Definition date_to_mjd (year month : Z) (day : R) : R :=
  let yearp := if decide (month = 1 ∨ month = 2)%Z then (year - 1)%Z else year in
  let monthp := if decide (month = 1 ∨ month = 2)%Z then (month + 12)%Z else month in
  let B :=
    if decide ((year < 1582)%Z ∨ (year = 1582%Z ∧ (month < 10)%Z)
               ∨ (year = 1582%Z ∧ month = 10%Z ∧ day < 15))
    then 0%Z
    else let A := trunc (IZR yearp / 100) in
         (2 - A + trunc (IZR A / 4))%Z in
  let C :=
    if decide (yearp < 0)%Z then trunc (365.25 * IZR yearp - 0.75)
    else trunc (365.25 * IZR yearp) in
  let D := trunc (30.6001 * IZR (monthp + 1)) in
  let jd := IZR B + IZR C + IZR D + day + 1720994.5 in
  jd - 2400000.5.

(** The Gregorian calendar, for comparison: leap years and the number of
    days of a month. *)
Definition leap_year (year : Z) : bool :=
  bool_decide ((year mod 4 = 0)%Z
               ∧ ((year mod 100 ≠ 0)%Z ∨ (year mod 400 = 0)%Z)).

Definition days_in_month (year month : Z) : Z :=
  if decide (month = 2)%Z then (if leap_year year then 29%Z else 28%Z)
  else if decide (month = 4 ∨ month = 6 ∨ month = 9 ∨ month = 11)%Z
       then 30%Z else 31%Z.

(** [rssq(x)]: the root of the sum of squares of every row of a matrix. *)
Definition rssq (x : ndarray2) : list R :=
  map (λ r, sqrt (fold_left (λ square_sum j,
                               square_sum + nth j r 0 * nth j r 0)
                            (seq 0 (shape1 x)) 0))
      (rows x).

(** [movingAverage(x, n)]: the pair [res, plot_range]. *)
Definition movingAverage (x : list R) (n : Z) : list R * list Z :=
  let plot_range := py_range n (Z.of_nat (length x) - n) in
  (map (λ i, mean (slice (i - n) (i + n + 1) x)) plot_range, plot_range).

(** An entry of a line handed to [roundList]: a string or a number. *)
Inductive entry : Type :=
  | EStr (s : string)
  | ENum (r : R).

Section RoundList.

(** ['{:.nf}'.format(x)] for a number x, Python's fixed-point formatting. *)
Variable format_f : nat → R → string.

(** One pass of the loop of [roundList], for the pair [j] of a position
    and a number of decimal places. *)
Definition roundList_step (l : list entry) (j : Z * Z) : result (list entry) :=
  v ← py_getitem l j.1;
  match v with
  | EStr s =>
      if decide (s = "-") then py_setitem l j.1 (EStr "-")
      else Raise ValueError
  | ENum r =>
      if decide (j.2 < 0)%Z then Raise ValueError
      else py_setitem l j.1 (EStr (format_f (Z.to_nat j.2) r))
  end.

Fixpoint roundList (l : list entry) (index : list (Z * Z))
  : result (list entry) :=
  match index with
  | [] => Ok l
  | j :: index => l ← roundList_step l j; roundList l index
  end.

End RoundList.

(** Python's answer ['1.50'] for 1.5 with two decimal places. *)
Definition format_1_50 (n : nat) (x : R) : string := "1.50".

(** [allan(data, tau)].  The state of its while loop for one interval
    length [f]: the position [k], the interval means [int], the running sum
    [s] and the pass counter [it]. *)
Record allan_state : Type := AllanState {
  al_k : Z;
  al_int : list R;
  al_s : R;
  al_it : Z
}.

Definition allan_start : allan_state :=
  {| al_k := 0; al_int := []; al_s := 0; al_it := 0 |}.

(** One pass of the loop body. *)
Definition allan_body (data : list R) (f : Z) (st : allan_state)
  : result allan_state :=
  let se := slice (al_k st) (al_k st + f) data in
  '(int, s) ←
    (if decide (Z.of_nat (length se) = f) then
       let int := al_int st ++ [mean se] in
       s ← (if decide (al_it st > 0)%Z then
              a ← py_getitem int (-1);
              b ← py_getitem int (-2);
              Ok (al_s st + (a - b) ^ 2)
            else Ok (al_s st));
       Ok (int, s)
     else Ok (al_int st, al_s st));
  Ok {| al_k := al_k st + f; al_int := int; al_s := s;
        al_it := al_it st + 1 |}.

(** The loop [while k < len(data)], run for at most [fuel] passes: [None]
    when the passes do not suffice. *)
Fixpoint allan_while (fuel : nat) (data : list R) (f : Z) (st : allan_state)
  : option (result allan_state) :=
  if decide (al_k st < Z.of_nat (length data))%Z then
    match fuel with
    | O => None
    | S fuel =>
        match allan_body data f st with
        | Ok st' => allan_while fuel data f st'
        | Raise e => Some (Raise e)
        end
    end
  else Some (Ok st).

(** What is appended to [res] after the loop for [f]: [v, err, count]. *)
Definition allan_entry (data : list R) (f : Z) (st : allan_state)
  : list (R * R * Z) :=
  let count := (Z.of_nat (length (al_int st)) - 1)%Z in
  if decide (count > 0)%Z then
    let v := sqrt (1 / IZR (2 * count) * al_s st) in
    let err := v / sqrt (IZR (Zfloor (INR (length data) / IZR f))) in
    [(v, err, count)]
  else [].

Fixpoint allan (fuel : nat) (data : list R) (tau : list Z)
  : option (result (list (R * R * Z))) :=
  match tau with
  | [] => Some (Ok [])
  | f :: tau =>
      match allan_while fuel data f allan_start with
      | None => None
      | Some (Raise e) => Some (Raise e)
      | Some (Ok st) =>
          match allan fuel data tau with
          | None => None
          | Some (Raise e) => Some (Raise e)
          | Some (Ok res) => Some (Ok (allan_entry data f st ++ res))
          end
      end
  end.

(** The quantities an Allan deviation is made of, for comparison: the
    means of the first [m] consecutive intervals of [f] samples, and the sum
    of the squared differences of successive entries of a list. *)
Definition interval_means (data : list R) (f m : nat) : list R :=
  map (λ i, mean (take f (drop (i * f) data))) (seq 0 m).

Definition squared_steps (ms : list R) : R :=
  foldr Rplus 0 (zip_with (λ a b, (b - a) ^ 2) ms (tail ms)).

(** The state of the loop of [allan] after [j] full intervals of [f]
    samples. *)
Definition allan_after (data : list R) (f j : nat) : allan_state :=
  {| al_k := Z.of_nat (j * f);
     al_int := interval_means data f j;
     al_s := squared_steps (interval_means data f j);
     al_it := Z.of_nat j |}.

(** The entry of the result for an interval length [f > 0], from those
    quantities: with M = len(data) // f full intervals, none when M < 2, and
    otherwise the deviation, its error and the count M - 1. *)
Definition allan_of (data : list R) (f : nat) : list (R * R * Z) :=
  let M := (length data / f)%nat in
  if decide (2 ≤ M)%nat then
    let v := sqrt (1 / IZR (2 * (Z.of_nat M - 1))
                   * squared_steps (interval_means data f M)) in
    [(v, v / sqrt (INR M), (Z.of_nat M - 1)%Z)]
  else [].

(** ** [projectFile.createDictionary] *)

(** The left fold of a step that may raise. *)
Fixpoint foldM {A B} (f : B → A → result B) (b : B) (l : list A)
  : result B :=
  match l with
  | [] => Ok b
  | a :: l => b' ← f b a; foldM f b' l
  end.

(** The four dictionaries the method fills. *)
Inductive pf_dict : Set :=
  | stationData
  | instrumentData
  | processingResults
  | gravityCorrections.

(** A conjunct after the first of an [if]: [self.file[i+off] == tok], or
    [i < n]. *)
Inductive pf_guard : Type :=
  | File_is (off : Z) (tok : string)
  | Index_below (n : Z).

(** One [if] of the loop body: it begins with [self.file[i] == pf_key],
    continues with the guards joined by [and], and its body assigns
    [dict[key] = self.file[i+off]] for each entry of [pf_sets] in turn. *)
Record pf_rule : Type := PfRule {
  pf_key : string;
  pf_guards : list pf_guard;
  pf_sets : list (pf_dict * string * Z)
}.

(** The [if] statements of the loop body, in source order.  Tokens are
    compared as UTF-8 strings. *)
Definition createDictionary_rules : list pf_rule :=
  [
   PfRule "Project" [File_is 1 "Name:"]
     [(stationData, "ProjName", 2%Z)];
   PfRule "Name:" [File_is (-1) "Data"]
     [(stationData, "name", 1%Z)];
   PfRule "Code:" []
     [(stationData, "SiteCode", 1%Z)];
   PfRule "Lat:" []
     [(stationData, "lat", 1%Z)];
   PfRule "Long:" []
     [(stationData, "long", 1%Z)];
   PfRule "Elev:" []
     [(stationData, "elev", 1%Z)];
   PfRule "Height:" [File_is (-1) "Setup"]
     [(stationData, "setupHeight", 1%Z)];
   PfRule "Height:" [File_is (-1) "Transfer"; File_is (-2) "cm"]
     [(stationData, "transferHeight", 1%Z)];
   PfRule "Height:" [File_is (-1) "Actual"]
     [(stationData, "actualHeight", 1%Z)];
   PfRule "Gradient:" [File_is (-1) "cm"]
     [(stationData, "gradient", 1%Z)];
   PfRule "Pressure:" [File_is (-1) "Air"]
     [(stationData, "airPressure", 1%Z)];
   PfRule "Factor:" [File_is (-1) "Admittance"]
     [(stationData, "barometricFactor", 1%Z)];
   PfRule "Coord:" []
     [(stationData, "polarX", 1%Z); (stationData, "polarY", 3%Z)];
   PfRule "Filename:" [File_is (-1) "Potential"]
     [(stationData, "potentialFile", 1%Z)];
   PfRule "Filename:" [File_is (-1) "Factor"]
     [(stationData, "deltaFactorFile", 1%Z)];
   PfRule "Type:" [File_is (-1) "Meter"]
     [(instrumentData, "meterType", 1%Z)];
   PfRule "S/N:" []
     [(instrumentData, "meterS/N", 1%Z)];
   PfRule "Height:" [File_is (-1) "Factory"]
     [(instrumentData, "factoryHeight", 1%Z)];
   PfRule "Frequency:" [File_is (-1) "Rubidium"]
     [(instrumentData, "rubiFreq", 1%Z)];
   PfRule "Laser:" [File_is 3 "ID:"]
     [(instrumentData, "laser", 1%Z)];
   PfRule "ID:" []
     [(instrumentData, "ID", 1%Z); (instrumentData, "ID_V", 4%Z)];
   PfRule "IE:" []
     [(instrumentData, "IE", 1%Z); (instrumentData, "IE_V", 4%Z)];
   PfRule "IF:" []
     [(instrumentData, "IF", 1%Z); (instrumentData, "IF_V", 4%Z)];
   PfRule "IG:" []
     [(instrumentData, "IG", 1%Z); (instrumentData, "IG_V", 4%Z)];
   PfRule "IH:" []
     [(instrumentData, "IH", 1%Z); (instrumentData, "IH_V", 4%Z)];
   PfRule "II:" []
     [(instrumentData, "II", 1%Z); (instrumentData, "II_V", 4%Z)];
   PfRule "IJ:" []
     [(instrumentData, "IJ", 1%Z); (instrumentData, "IJ_V", 4%Z)];
   PfRule "Frequency:" [File_is (-1) "Modulation"]
     [(instrumentData, "modulFreq", 1%Z)];
   PfRule "Date:" []
     [(processingResults, "date", 1%Z)];
   PfRule "Time:" []
     [(processingResults, "time", 1%Z)];
   PfRule "DOY:" []
     [(processingResults, "doy", 1%Z)];
   PfRule "Year:" []
     [(processingResults, "year", 1%Z)];
   PfRule "Offset" []
     [(processingResults, "timeOffset", 4%Z)];
   PfRule "Gravity:" []
     [(processingResults, "gravity", 1%Z)];
   PfRule "Scatter:" []
     [(processingResults, "setScatter", 1%Z)];
   PfRule "Precision:" []
     [(processingResults, "precision", 1%Z)];
   PfRule "Uncertainty:" [File_is (-1) "Total"]
     [(processingResults, "totalUncertainty", 1%Z)];
   PfRule "Collected:" []
     [(processingResults, "setsCollected", 1%Z)];
   PfRule "Processed:" [File_is (-1) "Sets"]
     [(processingResults, "setsProcessed", 1%Z)];
   PfRule "Processed:" [File_is (-1) "#s"]
     [(processingResults, "processedSets", 1%Z)];
   PfRule "Processed:" [File_is (-1) "NOT"; File_is (-2) "Sets"]
     [(processingResults, "numNotProcessed", 1%Z)];
   PfRule "Drops/Set:" []
     [(processingResults, "dropsInSet", 1%Z)];
   PfRule "Accepted:" []
     [(processingResults, "acceptedDrops", 1%Z)];
   PfRule "Rejected:" []
     [(processingResults, "rejectedDrops", 1%Z)];
   PfRule "Acquired:" []
     [(processingResults, "totalFringes", 1%Z)];
   PfRule "Start:" []
     [(processingResults, "fringeStart", 1%Z)];
   PfRule "Fringes:" []
     [(processingResults, "processedFringes", 1%Z)];
   PfRule "Multiplex:" []
     [(processingResults, "multiplex", 1%Z)];
   PfRule "Factor:" [File_is (-1) "Scale"]
     [(processingResults, "scaleFactor", 1%Z)];
   PfRule "(ETGTAB):" []
     [(gravityCorrections, "earthTide", 1%Z)];
   PfRule "Motion:" [File_is (-1) "Polar"; Index_below 460]
     [(gravityCorrections, "polarMotion", 1%Z)];
   PfRule "Pressure:" [File_is (-1) "Barometric"]
     [(gravityCorrections, "baroPress", 1%Z)];
   PfRule "Height:" [File_is 2 "µGal"]
     [(gravityCorrections, "transferHeight", 1%Z)];
   PfRule "Xo:" []
     [(gravityCorrections, "referenceXo", 1%Z)]
  ]%Z.

Record pf_dicts : Type := PfDicts {
  pf_station : gmap string string;
  pf_instrument : gmap string string;
  pf_processing : gmap string string;
  pf_gravity : gmap string string
}.

Definition pf_empty : pf_dicts := PfDicts ∅ ∅ ∅ ∅.

(** [dict[key] = v] *)
Definition pf_store (d : pf_dict) (key v : string) (ds : pf_dicts) : pf_dicts :=
  match d with
  | stationData =>
      PfDicts (<[key := v]> (pf_station ds)) (pf_instrument ds)
              (pf_processing ds) (pf_gravity ds)
  | instrumentData =>
      PfDicts (pf_station ds) (<[key := v]> (pf_instrument ds))
              (pf_processing ds) (pf_gravity ds)
  | processingResults =>
      PfDicts (pf_station ds) (pf_instrument ds)
              (<[key := v]> (pf_processing ds)) (pf_gravity ds)
  | gravityCorrections =>
      PfDicts (pf_station ds) (pf_instrument ds) (pf_processing ds)
              (<[key := v]> (pf_gravity ds))
  end.

(** The guards of an [if], left to right, stopping at the first that is
    false. *)
Fixpoint pf_guards_hold (file : list string) (i : Z) (gs : list pf_guard)
  : result bool :=
  match gs with
  | [] => Ok true
  | File_is off tok :: gs =>
      t ← py_getitem file (i + off)%Z;
      if decide (t = tok) then pf_guards_hold file i gs else Ok false
  | Index_below n :: gs =>
      if decide (i < n)%Z then pf_guards_hold file i gs else Ok false
  end.

Definition pf_assign (file : list string) (i : Z) (ds : pf_dicts)
    (s : pf_dict * string * Z) : result pf_dicts :=
  v ← py_getitem file (i + s.2)%Z;
  Ok (pf_store s.1.1 s.1.2 v ds).

(** The dictionary a name stands for. *)
Definition pf_select (d : pf_dict) (ds : pf_dicts) : gmap string string :=
  match d with
  | stationData => pf_station ds
  | instrumentData => pf_instrument ds
  | processingResults => pf_processing ds
  | gravityCorrections => pf_gravity ds
  end.

(** A computation that can fail only with IndexError. *)
Definition index_errors {A} (m : result A) : Prop :=
  ∀ e, m = Raise e → e = IndexError.

(** One [if] statement at index [i]. *)
Definition pf_rule_step (file : list string) (i : Z) (ds : pf_dicts)
    (r : pf_rule) : result pf_dicts :=
  t ← py_getitem file i;
  if decide (t = pf_key r) then
    b ← pf_guards_hold file i (pf_guards r);
    match b with
    | true => foldM (pf_assign file i) ds (pf_sets r)
    | false => Ok ds
    end
  else Ok ds.

(** The loop body at index [i], and the method. *)
Definition pf_index_step (file : list string) (ds : pf_dicts) (i : Z)
  : result pf_dicts :=
  foldM (pf_rule_step file i) ds createDictionary_rules.

Definition createDictionary (file : list string) : result pf_dicts :=
  foldM (pf_index_step file) pf_empty
        (py_range 0 (Z.of_nat (length file))).

(** The tokens that open an [if], and those that open one without any
    further condition. *)
Definition pf_keys : list string := pf_key <$> createDictionary_rules.

Definition pf_unguarded_keys : list string :=
  pf_key <$> filter (λ r, pf_guards r = []) createDictionary_rules.

(** ** The error monad *)

Lemma bind_Ok {A B} (m : result A) (f : A → result B) (b : B) :
  m ≫= f = Ok b → ∃ a, m = Ok a ∧ f a = Ok b.
Proof. destruct m as [a|e]; simpl; [eauto | discriminate]. Qed.

(** Peel the leading bind of a computation known to succeed. *)
Ltac inv_bind H :=
  let a := fresh "a" in
  let E := fresh "E" in
  apply bind_Ok in H as (a & E & H).

Ltac inv_binds H := repeat inv_bind H.

Lemma mapM_Ok_length {A B} (f : A → result B) (l : list A) (k : list B) :
  mapM f l = Ok k → length k = length l.
Proof.
  revert k. induction l as [|a l IH]; intros k H; simpl in H.
  - by injection H as <-.
  - inv_bind H. inv_bind H. injection H as <-. simpl. f_equal. by apply IH.
Qed.

Lemma mapM_Ok_lookup {A B} (f : A → result B) (l : list A) (k : list B) i a :
  mapM f l = Ok k → l !! i = Some a → ∃ b, f a = Ok b ∧ k !! i = Some b.
Proof.
  revert k i. induction l as [|a' l IH]; intros k i H Hi; [done|].
  simpl in H. inv_bind H. inv_bind H. injection H as <-.
  destruct i as [|i]; simpl in *.
  - injection Hi as ->. eauto.
  - eauto.
Qed.

Lemma mapM_Ok_map {A B} (f : A → result B) (g : A → B) (l : list A) :
  (∀ a, a ∈ l → f a = Ok (g a)) → mapM f l = Ok (map g l).
Proof.
  induction l as [|a l IH]; intros H; [done|]. simpl.
  rewrite (H a) by left. simpl. rewrite IH; [done|].
  intros b Hb. apply H. by right.
Qed.

Lemma item_Ok {A} (l : list A) i a : item l i = Ok a ↔ l !! i = Some a.
Proof.
  unfold item. destruct (l !! i); split; intros H; by inversion H.
Qed.

(** ** Reading attributes *)

Lemma getattr_data (self : Fall) name v :
  self !! name = Some v → getattr self name = Ok (Data v).
Proof. unfold getattr. by intros ->. Qed.

Lemma float_attr_float (self : Fall) name r :
  self !! name = Some (VFloat r) → float_attr self name = Ok r.
Proof. intros H. unfold float_attr. by rewrite (getattr_data _ _ _ H). Qed.

Lemma float_attr_int (self : Fall) name z :
  self !! name = Some (VInt z) → float_attr self name = Ok (IZR z).
Proof. intros H. unfold float_attr. by rewrite (getattr_data _ _ _ H). Qed.

Lemma int_attr_int (self : Fall) name z :
  self !! name = Some (VInt z) → int_attr self name = Ok z.
Proof. intros H. unfold int_attr. by rewrite (getattr_data _ _ _ H). Qed.

Lemma array_attr_array (self : Fall) name v :
  self !! name = Some (VArray v) → array_attr self name = Ok v.
Proof. intros H. unfold array_attr. by rewrite (getattr_data _ _ _ H). Qed.

(** ** The fringe loop *)

Lemma LST_fringe_inv (self : Fall) (i : nat) (r : fringe_row) :
  LST_fringe self i = Ok r →
  ∃ Lambda multiplex scaleFactor fringe f rubiFreq ksol c fmod gradient Lpar,
    float_attr self "Lambda" = Ok Lambda ∧
    float_attr self "multiplex" = Ok multiplex ∧
    float_attr self "scaleFactor" = Ok scaleFactor ∧
    array_attr self "fringe" = Ok fringe ∧
    fringe !! i = Some f ∧
    float_attr self "rubiFreq" = Ok rubiFreq ∧
    rubiFreq ≠ 0 ∧
    float_attr self "ksol" = Ok ksol ∧
    float_attr self "c" = Ok c ∧
    float_attr self "fmod" = Ok fmod ∧
    float_attr self "gradient" = Ok gradient ∧
    float_attr self "Lpar" = Ok Lpar ∧
    z1_i r = Lambda / 2 * INR i * multiplex * scaleFactor ∧
    tt_i r = f * (1e7 / rubiFreq) + ksol * z1_i r / c ∧
    let z := z1_i r in
    let t := tt_i r in
    let arg1 := 2 * PI * fmod * t in
    let arg2 := 2 * PI * fmod * 2 * z / c in
    line r = [1; t; t ^ 2 / 2;
              sin arg1 * sin arg2; sin arg1 * cos arg2;
              cos arg1 * sin arg2; cos arg1 * cos arg2;
              sin (2 * PI * z / Lpar); cos (2 * PI * z / Lpar)] ∧
    line_grad r = [1; t + gradient / 6 * t ^ 3;
                   t ^ 2 / 2 + gradient / 24 * t ^ 4;
                   sin arg1 * sin arg2; sin arg1 * cos arg2;
                   cos arg1 * sin arg2; cos arg1 * cos arg2;
                   sin (2 * PI * z / Lpar); cos (2 * PI * z / Lpar)] ∧
    A4_i r = [1; t; 0; sin (2 * PI * z / Lpar); cos (2 * PI * z / Lpar)].
Proof.
  unfold LST_fringe. intros H.
  apply bind_Ok in H as (Lambda & HL & H).
  apply bind_Ok in H as (multiplex & Hm & H).
  apply bind_Ok in H as (scaleFactor & Hs & H).
  apply bind_Ok in H as (fringe & Hfr & H).
  apply bind_Ok in H as (f & Hf & H).
  apply bind_Ok in H as (rubiFreq & Hrf & H).
  apply bind_Ok in H as (q & Hq & H).
  apply bind_Ok in H as (ksol & Hk & H).
  apply bind_Ok in H as (c & Hc & H).
  apply bind_Ok in H as (fmod & Hfm & H).
  apply bind_Ok in H as (gradient & Hg & H).
  apply bind_Ok in H as (Lpar & HLp & H).
  destruct (decide (rubiFreq = 0)) as [|Hrf0]; [discriminate|].
  injection Hq as <-. injection H as <-.
  apply item_Ok in Hf.
  exists Lambda, multiplex, scaleFactor, fringe, f, rubiFreq, ksol, c, fmod,
    gradient, Lpar.
  simpl. repeat split; auto.
Qed.

Lemma LST_fringe_Ok (self : Fall) (i : nat)
    Lambda multiplex scaleFactor fringe f rubiFreq ksol c fmod gradient Lpar :
  float_attr self "Lambda" = Ok Lambda →
  float_attr self "multiplex" = Ok multiplex →
  float_attr self "scaleFactor" = Ok scaleFactor →
  array_attr self "fringe" = Ok fringe →
  fringe !! i = Some f →
  float_attr self "rubiFreq" = Ok rubiFreq →
  rubiFreq ≠ 0 →
  float_attr self "ksol" = Ok ksol →
  float_attr self "c" = Ok c →
  float_attr self "fmod" = Ok fmod →
  float_attr self "gradient" = Ok gradient →
  float_attr self "Lpar" = Ok Lpar →
  ∃ r, LST_fringe self i = Ok r ∧
    let z := Lambda / 2 * INR i * multiplex * scaleFactor in
    let t := f * (1e7 / rubiFreq) + ksol * z / c in
    z1_i r = z ∧ tt_i r = t.
Proof.
  intros HL Hm Hs Hfr Hf Hrf Hrf0 Hk Hc Hfm Hg HLp.
  unfold LST_fringe.
  rewrite HL, Hm, Hs, Hfr. simpl.
  apply item_Ok in Hf. rewrite Hf, Hrf. simpl.
  destruct (decide (rubiFreq = 0)) as [|_]; [done|]. simpl.
  rewrite Hk, Hc, Hfm, Hg, HLp. simpl.
  eexists. split; [reflexivity|]. by simpl.
Qed.

Lemma LST_loop_length (self : Fall) rs :
  LST_loop self = Ok rs →
  ∃ fringe, array_attr self "fringe" = Ok fringe ∧ length rs = length fringe.
Proof.
  unfold LST_loop. intros H. apply bind_Ok in H as (fringe & Hfr & H).
  apply mapM_Ok_length in H. rewrite length_seq in H. eauto.
Qed.

Lemma LST_loop_lookup (self : Fall) rs i r :
  LST_loop self = Ok rs → rs !! i = Some r → LST_fringe self i = Ok r.
Proof.
  unfold LST_loop. intros H Hi. apply bind_Ok in H as (fringe & _ & H).
  assert (Hlen : (i < length fringe)%nat).
  { apply mapM_Ok_length in H as Hl. rewrite length_seq in Hl.
    rewrite <- Hl. by apply lookup_lt_Some with r. }
  destruct (mapM_Ok_lookup _ _ _ i i H) as (b & Hb & Hk).
  { by apply lookup_seq_lt. }
  congruence.
Qed.

(** The entries of the full-range arrays at a fringe index are those of
    the loop's pass for that index. *)
Lemma LST_arrays_lookup (rs : list fringe_row) i r :
  rs !! i = Some r →
  z1_of rs !! i = Some (z1_i r) ∧ tt_of rs !! i = Some (tt_i r) ∧
  rows (A1_of rs) !! i = Some (line r) ∧
  rows (A_grad1_of rs) !! i = Some (line_grad r) ∧
  rows (A4_of rs) !! i = Some (A4_i r).
Proof.
  intros H. unfold z1_of, tt_of, A1_of, A_grad1_of, A4_of. simpl.
  rewrite !list_lookup_fmap, H. done.
Qed.

(** X1: the positions and times the loop computes: [z1[i]] and [self.tt[i]]. *)
Lemma LST_loop_preprocess (self : Fall) rs i r :
  LST_loop self = Ok rs → rs !! i = Some r →
  ∃ Lambda multiplex scaleFactor fringe f rubiFreq ksol c,
    float_attr self "Lambda" = Ok Lambda ∧
    float_attr self "multiplex" = Ok multiplex ∧
    float_attr self "scaleFactor" = Ok scaleFactor ∧
    array_attr self "fringe" = Ok fringe ∧ fringe !! i = Some f ∧
    float_attr self "rubiFreq" = Ok rubiFreq ∧ rubiFreq ≠ 0 ∧
    float_attr self "ksol" = Ok ksol ∧ float_attr self "c" = Ok c ∧
    z1_i r = Lambda / 2 * INR i * multiplex * scaleFactor ∧
    tt_i r = f * (1e7 / rubiFreq) + ksol * z1_i r / c.
Proof.
  intros H Hi. apply (LST_loop_lookup _ _ _ _ H) in Hi.
  apply LST_fringe_inv in Hi
    as (L & m & s & fr & f & rf & k & c & fm & g & Lp & HL & Hm & Hs & Hfr
        & Hf & Hrf & Hrf0 & Hk & Hc & _ & _ & _ & Hz & Ht & _).
  exists L, m, s, fr, f, rf, k, c. repeat split; auto.
Qed.

(** ** The design matrices *)

Lemma drop_quarter_loop :
  ∃ r, LST_loop drop_quarter = Ok [r] ∧ z1_i r = 0 ∧ tt_i r = 1.
Proof.
  destruct (LST_fringe_Ok drop_quarter 0 1 1 1 [1] 1 1e7 1 2.99792458e+17
              (1 / 4) (-100 * 3 * 1e-8) 1) as (r & Hr & Hz & Ht);
    try reflexivity.
  { lra. }
  exists r. unfold LST_loop.
  rewrite (array_attr_array drop_quarter "fringe" [1]) by reflexivity.
  simpl. rewrite Hr. simpl. split; [done|].
  rewrite Ht, Hz. simpl. split; lra.
Qed.

(** C1, as amended: at every fringe index, columns 4 to 7 of the
    unconstrained and of the gradient-corrected design matrix are, in this
    order, sin(phi1)sin(phi2), sin(phi1)cos(phi2), cos(phi1)sin(phi2),
    cos(phi1)cos(phi2), with phi1 = 2 pi fmod tt[i] and
    phi2 = 2 pi fmod 2 z1[i] / c. *)
Theorem periodic_columns (self : Fall) rs i :
  LST_loop self = Ok rs → (i < length rs)%nat →
  ∃ fmod c t z rowA rowG,
    float_attr self "fmod" = Ok fmod ∧ float_attr self "c" = Ok c ∧
    tt_of rs !! i = Some t ∧ z1_of rs !! i = Some z ∧
    rows (A1_of rs) !! i = Some rowA ∧
    rows (A_grad1_of rs) !! i = Some rowG ∧
    let phi1 := 2 * PI * fmod * t in
    let phi2 := 2 * PI * fmod * 2 * z / c in
    take 4 (drop 3 rowA)
      = [sin phi1 * sin phi2; sin phi1 * cos phi2;
         cos phi1 * sin phi2; cos phi1 * cos phi2] ∧
    take 4 (drop 3 rowG) = take 4 (drop 3 rowA).
Proof.
  intros H Hi.
  destruct (lookup_lt_is_Some_2 rs i Hi) as [r Hr].
  pose proof (LST_loop_lookup _ _ _ _ H Hr) as Hf.
  apply LST_fringe_inv in Hf
    as (L & m & s & fr & f & rf & k & c & fm & g & Lp & _ & _ & _ & _
        & _ & _ & _ & _ & Hc & Hfm & _ & _ & Hz & Ht & Hl & Hg & _).
  destruct (LST_arrays_lookup rs i r Hr) as (Hz1 & Htt & HA & HG & _).
  exists fm, c, (tt_i r), (z1_i r), (line r), (line_grad r).
  rewrite Hl, Hg. cbv zeta. repeat split; auto; congruence.
Qed.

Lemma periodic_columns_witness :
  ∃ rs, LST_loop drop_quarter = Ok rs ∧ (0 < length rs)%nat ∧
  ∃ fmod c t z rowA rowG,
    float_attr drop_quarter "fmod" = Ok fmod ∧
    float_attr drop_quarter "c" = Ok c ∧
    tt_of rs !! 0%nat = Some t ∧ z1_of rs !! 0%nat = Some z ∧
    rows (A1_of rs) !! 0%nat = Some rowA ∧
    rows (A_grad1_of rs) !! 0%nat = Some rowG ∧
    let phi1 := 2 * PI * fmod * t in
    let phi2 := 2 * PI * fmod * 2 * z / c in
    take 4 (drop 3 rowA)
      = [sin phi1 * sin phi2; sin phi1 * cos phi2;
         cos phi1 * sin phi2; cos phi1 * cos phi2] ∧
    take 4 (drop 3 rowG) = take 4 (drop 3 rowA).
Proof.
  destruct drop_quarter_loop as (r & Hr & _).
  exists [r]. split; [exact Hr|]. split; [simpl; lia|].
  apply (periodic_columns drop_quarter [r] 0 Hr). simpl; lia.
Defined.

(** C1, as the specification words it, fails on [drop_quarter]: at fringe
    0 the angles are pi/2 and 0, column 4 of the matrix holds
    sin(pi/2)sin(0) = 0 where the specification's order puts
    sin(pi/2)cos(0) = 1. *)
Lemma periodic_columns_not_as_specified :
  ∃ rs fmod c t z rowA,
    LST_loop drop_quarter = Ok rs ∧
    float_attr drop_quarter "fmod" = Ok fmod ∧
    float_attr drop_quarter "c" = Ok c ∧
    tt_of rs !! 0%nat = Some t ∧ z1_of rs !! 0%nat = Some z ∧
    rows (A1_of rs) !! 0%nat = Some rowA ∧
    take 4 (drop 3 rowA) ≠ spec_periodic_columns fmod c t z.
Proof.
  destruct drop_quarter_loop as (r & Hr & Hz & Ht).
  assert (Hf : LST_fringe drop_quarter 0 = Ok r).
  { by apply (LST_loop_lookup drop_quarter [r] 0 r Hr). }
  apply LST_fringe_inv in Hf
    as (L & m & s & fr & f & rf & k & c & fm & g & Lp & _ & _ & _ & _
        & _ & _ & _ & _ & Hc & Hfm & _ & _ & _ & _ & Hl & _).
  assert (fm = 1 / 4) as ->.
  { rewrite (float_attr_float drop_quarter "fmod" (1 / 4)) in Hfm
      by reflexivity. congruence. }
  exists [r], (1 / 4), c, 1, 0, (line r).
  repeat split; try done; try (simpl; congruence).
  rewrite Hl, Hz, Ht. unfold spec_periodic_columns. simpl.
  replace (2 * PI * (1 / 4) * 1) with (PI / 2) by lra.
  replace (2 * PI * (1 / 4) * 2 * 0 / c) with 0 by (unfold Rdiv; ring).
  rewrite sin_PI2, sin_0, cos_0. intros Heq.
  injection Heq as Heq _. lra.
Qed.

(** C5: at every fringe index the gradient-corrected row has
    t + (gradient/6) t^3 in column 2 and t^2/2 + (gradient/24) t^4 in
    column 3, where the unconstrained row has t and t^2/2, and the two rows
    agree in every other column (1 and 4 to 9). *)
Theorem gradient_columns (self : Fall) rs i :
  LST_loop self = Ok rs → (i < length rs)%nat →
  ∃ gradient t rowA rowG,
    float_attr self "gradient" = Ok gradient ∧
    tt_of rs !! i = Some t ∧
    rows (A1_of rs) !! i = Some rowA ∧
    rows (A_grad1_of rs) !! i = Some rowG ∧
    length rowA = 9%nat ∧ length rowG = 9%nat ∧
    rowA !! 1%nat = Some t ∧
    rowA !! 2%nat = Some (t ^ 2 / 2) ∧
    rowG !! 1%nat = Some (t + gradient / 6 * t ^ 3) ∧
    rowG !! 2%nat = Some (t ^ 2 / 2 + gradient / 24 * t ^ 4) ∧
    ∀ j, j ≠ 1%nat → j ≠ 2%nat → rowG !! j = rowA !! j.
Proof.
  intros H Hi.
  destruct (lookup_lt_is_Some_2 rs i Hi) as [r Hr].
  pose proof (LST_loop_lookup _ _ _ _ H Hr) as Hf.
  apply LST_fringe_inv in Hf
    as (L & m & s & fr & f & rf & k & c & fm & g & Lp & _ & _ & _ & _
        & _ & _ & _ & _ & _ & _ & Hgr & _ & _ & _ & Hl & Hg & _).
  destruct (LST_arrays_lookup rs i r Hr) as (_ & Htt & HA & HG & _).
  exists g, (tt_i r), (line r), (line_grad r).
  rewrite Hl, Hg. cbv zeta.
  repeat split; auto; try congruence.
  intros j Hj1 Hj2.
  do 9 (destruct j as [|j]; [done || reflexivity|]). reflexivity.
Qed.

Lemma gradient_columns_witness :
  ∃ rs, LST_loop drop_quarter = Ok rs ∧ (0 < length rs)%nat ∧
  ∃ gradient t rowA rowG,
    float_attr drop_quarter "gradient" = Ok gradient ∧
    tt_of rs !! 0%nat = Some t ∧
    rows (A1_of rs) !! 0%nat = Some rowA ∧
    rows (A_grad1_of rs) !! 0%nat = Some rowG ∧
    length rowA = 9%nat ∧ length rowG = 9%nat ∧
    rowA !! 1%nat = Some t ∧
    rowA !! 2%nat = Some (t ^ 2 / 2) ∧
    rowG !! 1%nat = Some (t + gradient / 6 * t ^ 3) ∧
    rowG !! 2%nat = Some (t ^ 2 / 2 + gradient / 24 * t ^ 4) ∧
    ∀ j, j ≠ 1%nat → j ≠ 2%nat → rowG !! j = rowA !! j.
Proof.
  destruct drop_quarter_loop as (r & Hr & _).
  exists [r]. split; [exact Hr|]. split; [simpl; lia|].
  apply (gradient_columns drop_quarter [r] 0 Hr). simpl; lia.
Defined.

(** ** numpy arithmetic *)

Lemma broadcast_singleton_r (f : R → R → R) (u : list R) (b : R) :
  broadcast f u [b] = Ok (map (λ a, f a b) u).
Proof.
  unfold broadcast. destruct (decide (length u = length [b])) as [Hl|Hl].
  - destruct u as [|a [|? ?]]; simplify_eq/=. done.
  - destruct u as [|a [|? ?]]; done.
Qed.

Lemma broadcast_same_length (f : R → R → R) (u v : list R) :
  length u = length v → broadcast f u v = Ok (zip_with f u v).
Proof. intros Hl. unfold broadcast. by destruct (decide _). Qed.

Lemma broadcast_nil_r (f : R → R → R) (u : list R) :
  broadcast f u [] = if decide (length u ≤ 1)%nat then Ok [] else Raise ValueError.
Proof.
  unfold broadcast. destruct u as [|a [|b u]]; simpl; try done.
Qed.

Lemma broadcast_Ok (f : R → R → R) (u v : list R) :
  (length v = 1 ∨ length u = 1 ∨ length u = length v)%nat →
  ∃ w, broadcast f u v = Ok w.
Proof.
  intros [Hv|[Hu|Huv]].
  - destruct v as [|b [|? ?]]; try discriminate.
    rewrite broadcast_singleton_r. eauto.
  - destruct u as [|a [|? ?]]; try discriminate.
    unfold broadcast. destruct (decide _); [eauto|].
    destruct v as [|b [|? ?]]; eauto.
  - rewrite broadcast_same_length by done. eauto.
Qed.

Lemma matmul_Ok (A : ndarray2) (x : list R) :
  shape1 A = length x → matmul A x = Ok (map (λ r, dot r x) (rows A)).
Proof. intros Hl. unfold matmul. by destruct (decide _). Qed.

(** ** The solver *)

Section SolverFacts.

Variable lstsq : ndarray2 → list R → result lstsq_result.
Variable matrix_I : ndarray2 → result ndarray2.

(** C2: when the matrix has as many rows n as the fit range is long,
    n - k - 1 > 0 and A'A has an inverse C, the solve returns the variance
    factor rss / (n - k - 1), the standard deviations
    sqrt(C[j][j] * m0^2), their dot product with themselves, and the
    residual vector z - A x. *)
Theorem computeLST_statistics (self : Fall) (A : ndarray2) (z x : list R)
    (rss : R) (C : ndarray2) (frmin frmax : Z) :
  let n := Z.of_nat (shape0 A) in
  let k := Z.of_nat (shape1 A) in
  lstsq A z = Ok (Lstsq x [rss]) →
  dot2 (T A) A ≫= matrix_I = Ok C →
  int_attr self "frmin" = Ok frmin →
  int_attr self "frmax" = Ok frmax →
  n = (frmax - frmin)%Z →
  (n - k - 1 > 0)%Z →
  length x = shape1 A →
  length z = shape0 A →
  ∃ out, computeLST lstsq matrix_I self A z = Ok out ∧
    out_x out = Lstsq x [rss] ∧
    out_covar out = C ∧
    out_m02 out = [rss / IZR (n - k - 1)] ∧
    out_stdX out
      = map (λ cjj, sqrt (cjj * (rss / IZR (n - k - 1)))) (diag C) ∧
    out_std out = dot (out_stdX out) (out_stdX out) ∧
    out_res out = zip_with Rminus z (map (λ r, dot r x) (rows A)).
Proof.
  intros n k Hx HC Hmin Hmax Hn Hdof Hxl Hzl.
  unfold computeLST. rewrite Hx. simpl.
  destruct (dot2 (T A) A) as [M|] eqn:HM; [|discriminate]. simpl in *.
  rewrite HC, Hmax, Hmin. simpl.
  unfold multiply. rewrite broadcast_singleton_r. simpl.
  rewrite matmul_Ok by done. simpl.
  unfold subtract. rewrite broadcast_same_length
    by (rewrite length_map; exact Hzl). simpl.
  eexists. split; [reflexivity|]. simpl.
  replace (frmax - frmin - Z.of_nat (shape1 A) - 1)%Z with (n - k - 1)%Z
    by (subst n k; lia).
  rewrite map_map. done.
Qed.

(** C7, as amended: the solve has no degrees-of-freedom check.  Whenever
    [lstsq] and the inversion of A'A succeed, the fit range is set and the
    shapes agree (the residual array has one entry, or there is one
    unknown), it returns a result, with the residual sums divided by
    frmax - frmin - k - 1 whatever the sign of that number. *)
Theorem computeLST_returns (self : Fall) (A : ndarray2) (z : list R)
    (x : lstsq_result) (C : ndarray2) (frmin frmax : Z) :
  lstsq A z = Ok x →
  dot2 (T A) A ≫= matrix_I = Ok C →
  int_attr self "frmin" = Ok frmin →
  int_attr self "frmax" = Ok frmax →
  (length (residuals x) = 1 ∨ length (diag C) = 1
   ∨ length (diag C) = length (residuals x))%nat →
  length (sol x) = shape1 A →
  length z = shape0 A →
  ∃ out, computeLST lstsq matrix_I self A z = Ok out ∧
    out_x out = x ∧
    out_m02 out
      = map (λ r, r / IZR (frmax - frmin - Z.of_nat (shape1 A) - 1))
            (residuals x).
Proof.
  intros Hx HC Hmin Hmax Hb Hxl Hzl.
  unfold computeLST. rewrite Hx. simpl.
  destruct (dot2 (T A) A) as [M|] eqn:HM; [|discriminate]. simpl in *.
  rewrite HC, Hmax, Hmin. simpl.
  destruct (broadcast_Ok Rmult (diag C)
              (map (λ r, r / IZR (frmax - frmin - Z.of_nat (shape1 A) - 1))
                   (residuals x))) as [p Hp].
  { by rewrite length_map. }
  unfold multiply. rewrite Hp. simpl.
  rewrite matmul_Ok by done. simpl.
  unfold subtract. rewrite broadcast_same_length
    by (rewrite length_map; exact Hzl). simpl.
  eexists. split; [reflexivity|]. done.
Qed.

(** X7: the failure an under-determined fit with several unknowns does meet:
    [lstsq] reports no residual sum, and the empty array does not
    broadcast against the diagonal of the covariance. *)
Lemma computeLST_empty_residuals (self : Fall) (A : ndarray2) (z x : list R)
    (C : ndarray2) (frmin frmax : Z) :
  lstsq A z = Ok (Lstsq x []) →
  dot2 (T A) A ≫= matrix_I = Ok C →
  int_attr self "frmin" = Ok frmin →
  int_attr self "frmax" = Ok frmax →
  (2 ≤ length (diag C))%nat →
  computeLST lstsq matrix_I self A z = Raise ValueError.
Proof.
  intros Hx HC Hmin Hmax Hk.
  unfold computeLST. rewrite Hx. simpl.
  destruct (dot2 (T A) A) as [M|] eqn:HM; [|discriminate]. simpl in *.
  rewrite HC, Hmax, Hmin. simpl.
  unfold multiply. rewrite broadcast_nil_r.
  destruct (decide _); [lia|done].
Qed.

End SolverFacts.

Lemma lstsq_1col_ones3 :
  lstsq_1col ones3 [1; 2; 3] = Ok (Lstsq [2] [2]).
Proof.
  unfold lstsq_1col, ones3, col, dot, shape0. simpl.
  f_equal. f_equal; f_equal; field.
Qed.

Lemma matrix_I_1x1_ones3 :
  dot2 (T ones3) ones3 ≫= matrix_I_1x1 = Ok (Array2 1 [[/ 3]]).
Proof.
  unfold dot2, T, ones3, col, dot, shape0, matrix_I_1x1. simpl.
  destruct (decide (1 * 1 + (1 * 1 + (1 * 1 + 0)) = 0)) as [E|_]; [lra|].
  do 5 f_equal. ring.
Qed.

Lemma computeLST_statistics_witness :
  ∃ out, computeLST lstsq_1col matrix_I_1x1 fit_1_3 ones3 [1; 2; 3] = Ok out ∧
    out_x out = Lstsq [2] [2] ∧
    out_covar out = Array2 1 [[/ 3]] ∧
    out_m02 out = [2 / IZR (3 - 1 - 1)] ∧
    out_stdX out
      = map (λ cjj, sqrt (cjj * (2 / IZR (3 - 1 - 1)))) (diag (Array2 1 [[/ 3]])) ∧
    out_std out = dot (out_stdX out) (out_stdX out) ∧
    out_res out
      = zip_with Rminus [1; 2; 3] (map (λ r, dot r [2]) (rows ones3)).
Proof.
  apply (computeLST_statistics lstsq_1col matrix_I_1x1 fit_1_3 ones3
           [1; 2; 3] [2] 2 (Array2 1 [[/ 3]]) 0 3).
  - exact lstsq_1col_ones3.
  - exact matrix_I_1x1_ones3.
  - reflexivity.
  - reflexivity.
  - reflexivity.
  - reflexivity.
  - reflexivity.
  - reflexivity.
Defined.

Lemma computeLST_returns_witness :
  ∃ out, computeLST lstsq_1col matrix_I_1x1 fit_1_1 two1 [4] = Ok out ∧
    out_x out = Lstsq [2 * 4 / (2 * 2)] [] ∧
    out_m02 out
      = map (λ r, r / IZR (1 - 0 - Z.of_nat (shape1 two1) - 1)) [].
Proof.
  apply (computeLST_returns lstsq_1col matrix_I_1x1 fit_1_1 two1 [4]
           (Lstsq [2 * 4 / (2 * 2)] []) (Array2 1 [[/ (2 * 2)]]) 0 1).
  - unfold lstsq_1col, two1, col, dot, shape0. simpl.
    do 3 f_equal. field.
  - unfold dot2, T, two1, col, dot, shape0, matrix_I_1x1. simpl.
    destruct (decide (2 * 2 + 0 = 0)) as [E|_]; [lra|].
    do 5 f_equal. ring.
  - reflexivity.
  - reflexivity.
  - right. left. reflexivity.
  - reflexivity.
  - reflexivity.
Defined.

(** C7, as the specification words it, fails: with one row and one column
    ([n - k - 1 = -1]) and with two rows and one column ([n - k - 1 = 0])
    the solve returns a result. *)
Lemma computeLST_underdetermined_returns :
  ((Z.of_nat (shape0 two1) - Z.of_nat (shape1 two1) - 1 ≤ 0)%Z ∧
   ∃ out, computeLST lstsq_1col matrix_I_1x1 fit_1_1 two1 [4] = Ok out ∧
     sol (out_x out) = [2] ∧ out_m02 out = [] ∧ out_stdX out = [] ∧
     out_std out = 0 ∧ out_res out = [0]) ∧
  ((Z.of_nat (shape0 ones2) - Z.of_nat (shape1 ones2) - 1 ≤ 0)%Z ∧
   ∃ out, computeLST lstsq_1col matrix_I_1x1 fit_1_2 ones2 [1; 2] = Ok out ∧
     sol (out_x out) = [3 / 2] ∧ out_res out = [- (1 / 2); 1 / 2]).
Proof.
  split; (split; [by vm_compute|]).
  - unfold computeLST, lstsq_1col, dot2, T, two1, col, dot, shape0,
      matrix_I_1x1. simpl.
    destruct (decide (2 * 2 + 0 = 0)) as [E|_]; [lra|]. simpl.
    eexists. split; [reflexivity|]. simpl.
    repeat split; unfold dot; simpl; f_equal; field.
  - unfold computeLST, lstsq_1col, dot2, T, ones2, col, dot, shape0,
      matrix_I_1x1. simpl.
    destruct (decide (1 * 1 + (1 * 1 + 0) = 0)) as [E|_]; [lra|]. simpl.
    eexists. split; [reflexivity|]. simpl.
    split; unfold dot; simpl; repeat (f_equal; try field).
Qed.

(** ** Derived quantities *)

Lemma call_method {A} (self : Fall) name (m : Fall → result A) :
  name ∈ Fall_methods → self !! name = None → call self name m = m self.
Proof.
  intros Hin Hno. unfold call, getattr. rewrite Hno.
  by destruct (decide (name ∈ Fall_methods)).
Qed.

Lemma call_shadowed {A} (self : Fall) name v (m : Fall → result A) :
  self !! name = Some v → call self name m = Raise TypeError.
Proof. intros Hv. unfold call, getattr. by rewrite Hv. Qed.

(** C3: on a fitted drop with nonzero gradient on which no method name is
    shadowed, the calls effectiveHeight, effectiveHeightTop,
    effectivePosition, gTop, gTopCor succeed and leave
    h = -(g0_Gr - g0)/gradient, Grad = v0^2/(2 g0_Gr), htop = h + Grad,
    effectiveZ = h + z0, gTop = g0_Gr - gradient Grad and
    gTopCor = gTop + 10 (tide + load + baro + polar). *)
Theorem derived_quantities_formulas (self : Fall)
    (g0 g0_Gr z0 v0 gradient tide load baro polar : R) :
  self !! "g0" = Some (VFloat g0) →
  self !! "g0_Gr" = Some (VFloat g0_Gr) →
  self !! "z0" = Some (VFloat z0) →
  self !! "v0" = Some (VFloat v0) →
  self !! "gradient" = Some (VFloat gradient) →
  (∀ name, name ∈ Fall_methods → self !! name = None) →
  gradient ≠ 0 →
  let h := (- (g0_Gr - g0)) / gradient in
  let Grad := v0 ^ 2 / (2 * g0_Gr) in
  let gTop := g0_Gr - gradient * Grad in
  ∃ self', derived_quantities tide load baro polar self = Ok self' ∧
    self' !! "h" = Some (VFloat h) ∧
    self' !! "Grad" = Some (VFloat Grad) ∧
    self' !! "htop" = Some (VFloat (h + Grad)) ∧
    self' !! "effectiveZ" = Some (VFloat (h + z0)) ∧
    self' !! "gTop" = Some (VFloat gTop) ∧
    self' !! "gTopCor" = Some (VFloat (gTop + 10 * (tide + load + baro + polar))).
Proof.
  intros Hg0 Hg0a Hz0 Hv0 Hgr Hfresh Hnz h Grad gTop'.
  assert (Hm : ∀ name, name ∈ Fall_methods → self !! name = None) by done.
  unfold derived_quantities.
  rewrite call_method; [|set_solver|apply Hm; set_solver].
  unfold effectiveHeight at 1.
  rewrite (float_attr_float _ _ _ Hg0a), (float_attr_float _ _ _ Hg0),
    (float_attr_float _ _ _ Hgr). simpl.
  rewrite call_method;
    [|set_solver|rewrite lookup_insert_ne by done; apply Hm; set_solver].
  unfold effectiveHeightTop at 1.
  rewrite !(float_attr_float _ "v0" v0), !(float_attr_float _ "g0_Gr" g0_Gr)
    by (by simplify_map_eq).
  simpl.
  rewrite (float_attr_float _ "h" h), (float_attr_float _ "Grad" Grad)
    by (by simplify_map_eq).
  simpl.
  rewrite call_method;
    [|set_solver|rewrite !lookup_insert_ne by done; apply Hm; set_solver].
  unfold effectivePosition at 1.
  rewrite (float_attr_float _ "h" h), (float_attr_float _ "z0" z0)
    by (by simplify_map_eq).
  simpl.
  rewrite call_method;
    [|set_solver|rewrite !lookup_insert_ne by done; apply Hm; set_solver].
  unfold gTop at 1.
  rewrite (float_attr_float _ "g0_Gr" g0_Gr),
    (float_attr_float _ "gradient" gradient), (float_attr_float _ "Grad" Grad)
    by (by simplify_map_eq).
  simpl.
  rewrite call_method;
    [|set_solver|rewrite !lookup_insert_ne by done; apply Hm; set_solver].
  unfold gTopCor.
  rewrite (float_attr_float _ "gTop" gTop') by (by simplify_map_eq).
  simpl. eexists. split; [reflexivity|].
  repeat split; simplify_map_eq; try reflexivity.
  do 2 f_equal. ring.
Qed.

Lemma fitted_fixture_fresh name :
  name ∈ Fall_methods → fitted_fixture !! name = None.
Proof.
  intros Hin. unfold Fall_methods in Hin.
  repeat (apply elem_of_cons in Hin as [->|Hin]; [reflexivity|]).
  by apply elem_of_nil in Hin.
Qed.

Lemma derived_quantities_formulas_witness :
  let g0 := 9800000000 in
  let g0_Gr := 9800000500 in
  let gradient := -100 * 3e9 * 1e-8 in
  let h := (- (g0_Gr - g0)) / gradient in
  let Grad := 140000 ^ 2 / (2 * g0_Gr) in
  let gTop := g0_Gr - gradient * Grad in
  ∃ self', derived_quantities 1 2 3 4 fitted_fixture = Ok self' ∧
    self' !! "h" = Some (VFloat h) ∧
    self' !! "Grad" = Some (VFloat Grad) ∧
    self' !! "htop" = Some (VFloat (h + Grad)) ∧
    self' !! "effectiveZ" = Some (VFloat (h + 12)) ∧
    self' !! "gTop" = Some (VFloat gTop) ∧
    self' !! "gTopCor" = Some (VFloat (gTop + 10 * (1 + 2 + 3 + 4))).
Proof.
  apply (derived_quantities_formulas fitted_fixture 9800000000 9800000500
           12 140000 (-100 * 3e9 * 1e-8) 1 2 3 4); try reflexivity.
  - exact fitted_fixture_fresh.
  - lra.
Defined.

(** The specification's fixture: the effective height is 1/6. *)
Example effectiveHeight_fixture :
  ∃ self', effectiveHeight fitted_fixture = Ok self' ∧
           self' !! "h" = Some (VFloat (1 / 6)).
Proof.
  unfold effectiveHeight.
  rewrite (float_attr_float _ "g0_Gr" 9800000500),
    (float_attr_float _ "g0" 9800000000),
    (float_attr_float _ "gradient" (-100 * 3e9 * 1e-8)) by reflexivity.
  simpl. eexists. split; [reflexivity|].
  rewrite lookup_insert_eq. do 2 f_equal. lra.
Qed.

(** C9: one successful call of [gTop] stores a number under the name
    gTop in the instance, and the next call of [gTop] on that instance
    raises a TypeError: the number is not callable. *)
Theorem gTop_once (self self' : Fall) :
  call self "gTop" gTop = Ok self' →
  self !! "gTop" = None ∧
  (∃ v, self' !! "gTop" = Some (VFloat v) ∧
        getattr self' "gTop" = Ok (Data (VFloat v))) ∧
  call self' "gTop" gTop = Raise TypeError.
Proof.
  intros H.
  assert (Hno : self !! "gTop" = None).
  { unfold call, getattr in H. destruct (self !! "gTop"); [discriminate|done]. }
  rewrite call_method in H by (done || set_solver).
  unfold gTop in H. inv_binds H. injection H as <-.
  split; [done|]. split.
  - eexists. split; [apply lookup_insert_eq|].
    apply getattr_data, lookup_insert_eq.
  - eapply call_shadowed, lookup_insert_eq.
Qed.

Lemma gTop_once_witness :
  let self' := <["gTop" := VFloat (9800000500 - -100 * 3e9 * 1e-8 * 1)]>
                 fixture_with_Grad in
  call fixture_with_Grad "gTop" gTop = Ok self' ∧
  fixture_with_Grad !! "gTop" = None ∧
  (∃ v, self' !! "gTop" = Some (VFloat v) ∧
        getattr self' "gTop" = Ok (Data (VFloat v))) ∧
  call self' "gTop" gTop = Raise TypeError.
Proof.
  intros self'.
  assert (H : call fixture_with_Grad "gTop" gTop = Ok self').
  { rewrite call_method by (reflexivity || set_solver).
    unfold gTop.
    rewrite (float_attr_float _ "g0_Gr" 9800000500),
      (float_attr_float _ "gradient" (-100 * 3e9 * 1e-8)),
      (float_attr_float _ "Grad" 1) by reflexivity.
    reflexivity. }
  split; [exact H|]. exact (gTop_once fixture_with_Grad self' H).
Defined.

(** ** The ranges *)

(** C10: [setFRssRange] takes the upper bound first: called with a pair
    in (min, max) order it stores min unchanged as frmaxss and max - 1 as
    frminss, where [setFrRange] with the same pair stores min - 1 as frmin
    and max as frmax. *)
Theorem setFRssRange_order (self : Fall) (lo hi : Z) :
  setFRssRange self lo hi !! "frmaxss" = Some (VInt lo) ∧
  setFRssRange self lo hi !! "frminss" = Some (VInt (hi - 1)) ∧
  setFrRange self lo hi !! "frmin" = Some (VInt (lo - 1)) ∧
  setFrRange self lo hi !! "frmax" = Some (VInt hi).
Proof. unfold setFRssRange, setFrRange. repeat split; by simplify_map_eq. Qed.

(** What the swap does downstream: for 0 <= min < max the slice
    [res[frminss:frmaxss]] taken with the stored bounds is empty. *)
Lemma setFRssRange_positional_slice (self : Fall) (lo hi : Z) (res : list R) :
  (0 ≤ lo < hi)%Z →
  ∃ frminss frmaxss,
    int_attr (setFRssRange self lo hi) "frminss" = Ok frminss ∧
    int_attr (setFRssRange self lo hi) "frmaxss" = Ok frmaxss ∧
    slice frminss frmaxss res = [].
Proof.
  intros Hr. exists (hi - 1)%Z, lo. unfold setFRssRange.
  split; [apply int_attr_int; by simplify_map_eq|].
  split; [apply int_attr_int; by simplify_map_eq|].
  unfold slice, slice_index.
  destruct (Z.ltb_spec (hi - 1) 0); [lia|].
  destruct (Z.ltb_spec lo 0); [lia|].
  replace (Z.to_nat _) with 0%nat by lia. done.
Qed.

(** ** The drop-acceptance value *)

Lemma slice_in_range {A} (l : list A) (lo hi : Z) :
  (0 ≤ lo ≤ hi)%Z → (hi ≤ Z.of_nat (length l))%Z →
  slice lo hi l = take (Z.to_nat (hi - lo)) (drop (Z.to_nat lo) l) ∧
  length (slice lo hi l) = Z.to_nat (hi - lo).
Proof.
  intros Hlo Hhi. unfold slice, slice_index.
  destruct (Z.ltb_spec lo 0); [lia|]. destruct (Z.ltb_spec hi 0); [lia|].
  rewrite !Z.min_l by lia. split; [done|].
  rewrite length_take, length_drop. lia.
Qed.

(** X8: within the array, the slice [frminss:frmaxss] holds
    frmaxss - frminss residuals and [ssres] divides their sum of squares by
    one more than that count. *)
Lemma LST_ssres_divisor (res_grad1 : list R) (frminss frmaxss : Z) :
  (0 ≤ frminss ≤ frmaxss)%Z → (frmaxss ≤ Z.of_nat (length res_grad1))%Z →
  let ress := slice frminss frmaxss res_grad1 in
  length ress = Z.to_nat (frmaxss - frminss) ∧
  LST_ssres res_grad1 frminss frmaxss
    = sqrt (dot ress ress / (INR (length ress) + 1)).
Proof.
  intros Hlo Hhi ress.
  destruct (slice_in_range res_grad1 frminss frmaxss Hlo Hhi) as [_ Hlen].
  split; [exact Hlen|].
  unfold LST_ssres. fold ress. do 2 f_equal.
  subst ress. rewrite Hlen, INR_IZR_INZ, Z2Nat.id by lia.
  by rewrite plus_IZR.
Qed.

(** C6, where the code departs from the specification: for the residuals
    1, -1, 1, -1 and the statistics range [0, 4) the four residuals have
    root-mean-square 1, and [ssres] is sqrt(4/5): the divisor is 5, one
    more than the count. *)
Theorem ssres_divides_by_count_plus_one :
  let res_grad1 := [1; -1; 1; -1] in
  let ress := slice 0 4 res_grad1 in
  ress = res_grad1 ∧
  spec_rms ress = 1 ∧
  LST_ssres res_grad1 0 4 = sqrt (4 / 5) ∧
  LST_ssres res_grad1 0 4 ≠ spec_rms ress.
Proof.
  intros res_grad1 ress.
  assert (H1 : spec_rms ress = 1).
  { unfold spec_rms, ress, res_grad1, dot. simpl.
    replace (_ / _) with 1 by field. apply sqrt_1. }
  assert (H2 : LST_ssres res_grad1 0 4 = sqrt (4 / 5)).
  { unfold LST_ssres, res_grad1, dot. simpl.
    change (4 - 0 + 1)%Z with 5%Z. f_equal. field. }
  repeat split; try done.
  rewrite H1, H2. intros Heq.
  assert (Hsq : sqrt (4 / 5) * sqrt (4 / 5) = 4 / 5) by (apply sqrt_sqrt; lra).
  rewrite Heq in Hsq. lra.
Qed.

(** ** The solve with modulation *)

(** The modulation stage returns whenever both solutions have the nine
    entries of the nine-column fits and the gradient is set. *)
Lemma LST_modulation_Ok (self : Fall) (rs : list fringe_row)
    (x x_grad : list R) (gradient : R) :
  length x = 9%nat → length x_grad = 9%nat →
  float_attr self "gradient" = Ok gradient →
  ∃ A4 zgrad, LST_modulation self rs x x_grad = Ok (A4, zgrad).
Proof.
  intros Hx Hxg Hg.
  destruct x as [|x0 [|x1 [|x2 x']]]; try discriminate.
  destruct x_grad as [|g0 [|g1 [|g2 g']]]; try discriminate.
  unfold LST_modulation.
  do 2 (erewrite mapM_Ok_map; last first;
        [intros r _; unfold item; cbn -[float_attr pow]; rewrite ?Hg;
         reflexivity|]).
  cbn -[pow]. unfold set_col.
  destruct (decide _) as [|Hn];
    [|destruct Hn; unfold shape0, A4_of; simpl; by rewrite !length_map].
  cbn -[pow]. rewrite matmul_Ok
    by (rewrite length_drop; simpl; simpl in Hx; lia).
  cbn -[pow].
  unfold subtract. rewrite broadcast_same_length by (by rewrite !length_map).
  simpl. eauto.
Qed.

(** C4: at every fringe index i the observation of the solve with
    modulation is z1[i] - x[2]/2 t^2 minus the dot product of columns 4 to
    9 of row i of the full gradient matrix with x[3..8], and column 2 of the
    five-column matrix is
    (x[1]/6 t^3 + x[2]/24 t^4 - (x[2] - x_grad[2]) t^2 / (2 gradient)) / 1e6,
    with t = tt[i]; the other four columns keep what the loop wrote. *)
Theorem modulation_inputs (self : Fall) (rs : list fringe_row)
    (x x_grad : list R) (A4 : ndarray2) (zgrad : list R) i r :
  LST_modulation self rs x x_grad = Ok (A4, zgrad) →
  rs !! i = Some r →
  ∃ x1 x2 xg2 gradient rowG,
    x !! 1%nat = Some x1 ∧ x !! 2%nat = Some x2 ∧
    x_grad !! 2%nat = Some xg2 ∧
    float_attr self "gradient" = Ok gradient ∧
    rows (A_grad1_of rs) !! i = Some rowG ∧
    length (drop 3 x) = 6%nat ∧
    let t := tt_i r in
    zgrad !! i
      = Some (z1_i r - x2 / 2 * t ^ 2 - dot (drop 3 rowG) (drop 3 x)) ∧
    rows A4 !! i
      = Some (<[2%nat := (x1 / 6 * t ^ 3 + x2 / 24 * t ^ 4
                          - (x2 - xg2) * t ^ 2 / (2 * gradient)) / 1e6]>
                (A4_i r)).
Proof.
  intros H Hr. unfold LST_modulation in H.
  apply bind_Ok in H as (col2 & Hcol2 & H).
  apply bind_Ok in H as (A4' & HA4 & H).
  apply bind_Ok in H as (zg & Hzg & H).
  apply bind_Ok in H as (modkor & Hmod & H).
  apply bind_Ok in H as (zgrad' & Hsub & H).
  injection H as -> ->.
  destruct (mapM_Ok_lookup _ _ _ i r Hcol2 Hr) as (c2 & Hc2 & Hc2i).
  apply bind_Ok in Hc2 as (x1 & Hx1 & Hc2).
  apply bind_Ok in Hc2 as (x2 & Hx2 & Hc2).
  apply bind_Ok in Hc2 as (xg2 & Hxg2 & Hc2).
  apply bind_Ok in Hc2 as (g & Hg & Hc2).
  injection Hc2 as <-.
  apply item_Ok in Hx1, Hx2, Hxg2.
  destruct (mapM_Ok_lookup _ _ _ i r Hzg Hr) as (zi & Hzi & Hzgi).
  apply bind_Ok in Hzi as (x2' & Hx2' & Hzi). apply item_Ok in Hx2'.
  injection Hzi as <-. assert (x2' = x2) as -> by congruence.
  unfold matmul in Hmod. destruct (decide _) as [Hshape|]; [|discriminate].
  injection Hmod as <-. simpl in Hshape.
  unfold subtract in Hsub. rewrite broadcast_same_length in Hsub; last first.
  { apply mapM_Ok_length in Hzg. simpl. by rewrite !length_map. }
  injection Hsub as <-.
  unfold set_col in HA4. destruct (decide _); [|discriminate].
  injection HA4 as <-.
  exists x1, x2, xg2, g, (line_grad r).
  repeat split; auto.
  - unfold A_grad1_of. simpl. by rewrite list_lookup_fmap, Hr.
  - rewrite lookup_zip_with, Hzgi. simpl.
    rewrite !list_lookup_fmap, Hr. done.
  - simpl. rewrite lookup_zip_with, list_lookup_fmap, Hr. simpl.
    rewrite Hc2i. simpl. by rewrite (Rmult_comm g 2).
Qed.

Lemma modulation_inputs_witness :
  let x := [1; 2; 3; 4; 5; 6; 7; 8; 9] in
  let x_grad := [1; 2; 4; 4; 5; 6; 7; 8; 9] in
  ∃ r A4 zgrad,
    LST_modulation drop_quarter [r] x x_grad = Ok (A4, zgrad) ∧
    ∃ x1 x2 xg2 gradient rowG,
      x !! 1%nat = Some x1 ∧ x !! 2%nat = Some x2 ∧
      x_grad !! 2%nat = Some xg2 ∧
      float_attr drop_quarter "gradient" = Ok gradient ∧
      rows (A_grad1_of [r]) !! 0%nat = Some rowG ∧
      length (drop 3 x) = 6%nat ∧
      let t := tt_i r in
      zgrad !! 0%nat
        = Some (z1_i r - x2 / 2 * t ^ 2 - dot (drop 3 rowG) (drop 3 x)) ∧
      rows A4 !! 0%nat
        = Some (<[2%nat := (x1 / 6 * t ^ 3 + x2 / 24 * t ^ 4
                            - (x2 - xg2) * t ^ 2 / (2 * gradient)) / 1e6]>
                  (A4_i r)).
Proof.
  intros x x_grad.
  destruct drop_quarter_loop as (r & _ & _).
  destruct (LST_modulation_Ok drop_quarter [r] x x_grad (-100 * 3 * 1e-8))
    as (A4 & zgrad & H); try reflexivity.
  exists r, A4, zgrad. split; [exact H|].
  exact (modulation_inputs drop_quarter [r] x x_grad A4 zgrad 0 r H eq_refl).
Defined.

(** ** The emitted record *)

Lemma printResult_pairs (X std Xp sp : list R) :
  length Xp = length sp → (length X ≤ length std)%nat →
  mapM (λ i, x ← item (Xp ++ X) i; s ← item (sp ++ std) i;
             Ok [CFloat x; CFloat s]) (seq (length Xp) (length X))
  = Ok (zip_with (λ x s, [CFloat x; CFloat s]) X std).
Proof.
  revert std Xp sp. induction X as [|x X IH]; intros std Xp sp Hp Hl; [done|].
  destruct std as [|s std]; simpl in Hl; [lia|].
  cbn [length seq mapM].
  assert (Hx : item (Xp ++ x :: X) (length Xp) = Ok x).
  { apply item_Ok. by rewrite list_lookup_middle. }
  assert (Hs : item (sp ++ s :: std) (length Xp) = Ok s).
  { apply item_Ok. by rewrite list_lookup_middle. }
  rewrite Hx. cbn [mbind result_bind]. rewrite Hs. cbn [mbind result_bind].
  specialize (IH std (Xp ++ [x]) (sp ++ [s])).
  rewrite <- !(assoc_L (++)), length_app in IH. simpl in IH.
  rewrite Nat.add_1_r in IH. rewrite IH; [done| |lia].
  rewrite !length_app. simpl. lia.
Qed.

(** C8: for a solution with at least the three unknowns z0, v0, g0 and a
    standard deviation for each unknown, the row written is set, drop,
    m0[0] and then value and deviation of each unknown in turn, where the
    z0 value is scaled by 1e-6 and rounded to 4 places, its deviation
    scaled by 1e-6 and rounded to 14 places, the v0 value scaled by 1e-6
    and rounded to 4 places, its deviation scaled by 1e-6 and rounded to 15
    places, and the g0 deviation rounded to 3 places; every other entry is
    written as it came. *)
Theorem printResult_row (x0 x1 x2 : R) (Xt : list R) (s0 s1 s2 : R)
    (st : list R) (set drop : Z) (m00 : R) (m0t : list R) :
  (length Xt ≤ length st)%nat →
  printResult (x0 :: x1 :: x2 :: Xt) (s0 :: s1 :: s2 :: st) set drop
              (m00 :: m0t)
  = Ok ([CInt set; CInt drop; CFloat m00;
         CFloat (round (x0 * 1e-6) 4); CFloat (round (s0 * 1e-6) 14);
         CFloat (round (x1 * 1e-6) 4); CFloat (round (s1 * 1e-6) 15);
         CFloat x2; CFloat (round s2 3)]
        ++ concat (zip_with (λ x s, [CFloat x; CFloat s]) Xt st)).
Proof.
  intros Hl. unfold printResult.
  change (item (m00 :: m0t) 0) with (Ok m00). cbn [mbind result_bind].
  pose proof (printResult_pairs (x0 :: x1 :: x2 :: Xt)
                (s0 :: s1 :: s2 :: st) [] [] eq_refl) as Hp.
  change ([] ++ (x0 :: x1 :: x2 :: Xt)) with (x0 :: x1 :: x2 :: Xt) in Hp.
  change ([] ++ (s0 :: s1 :: s2 :: st)) with (s0 :: s1 :: s2 :: st) in Hp.
  change (length (@nil R)) with 0%nat in Hp.
  rewrite Hp by (simpl; lia). reflexivity.
Qed.

Lemma printResult_row_witness :
  printResult [12345.6789123; 2; 3] [0.0000001234; 0.5; 0.25] 1 7 [0.7]
  = Ok ([CInt 1; CInt 7; CFloat 0.7;
         CFloat (round (12345.6789123 * 1e-6) 4);
         CFloat (round (0.0000001234 * 1e-6) 14);
         CFloat (round (2 * 1e-6) 4); CFloat (round (0.5 * 1e-6) 15);
         CFloat 3; CFloat (round 0.25 3)]
        ++ concat (zip_with (λ x s, [CFloat x; CFloat s]) [] [])).
Proof.
  apply (printResult_row 12345.6789123 2 3 [] 0.0000001234 0.5 0.25 []
           1 7 0.7 []).
  simpl. lia.
Defined.

(** The specification's rounding fixture: z0 = 12345.6789123 is written
    as 0.0123. *)
Example round_fixture : round (12345.6789123 * 1e-6) 4 = 0.0123.
Proof.
  unfold round, rint.
  assert (Hf : Zfloor (12345.6789123 * 1e-6 * 10 ^ 4) = 123%Z).
  { apply Zfloor_eq. split; lra. }
  rewrite Hf. destruct (Rlt_dec _ _) as [_|Hn]; [lra|].
  exfalso. apply Hn. lra.
Qed.

(** With fewer than three unknowns the write fails: entry 8 is absent. *)
Lemma printResult_short (x0 x1 s0 s1 : R) (set drop : Z) (m0 : list R) :
  m0 ≠ [] → printResult [x0; x1] [s0; s1] set drop m0 = Raise IndexError.
Proof. intros Hm. destruct m0; [done|]. reflexivity. Qed.

(** ** The whole fit *)

Lemma getattr_insert_ne (self : Fall) (k name : string) (v : value) :
  k ≠ name → getattr (<[k := v]> self) name = getattr self name.
Proof. intros Hne. unfold getattr. by rewrite lookup_insert_ne. Qed.

Lemma int_attr_insert_ne (self : Fall) (k name : string) (v : value) :
  k ≠ name → int_attr (<[k := v]> self) name = int_attr self name.
Proof. intros Hne. unfold int_attr. by rewrite getattr_insert_ne. Qed.

Lemma float_attr_insert_ne (self : Fall) (k name : string) (v : value) :
  k ≠ name → float_attr (<[k := v]> self) name = float_attr self name.
Proof. intros Hne. unfold float_attr. by rewrite getattr_insert_ne. Qed.

Lemma LST_modulation_ext (self1 self2 : Fall) rs x x_grad :
  float_attr self1 "gradient" = float_attr self2 "gradient" →
  LST_modulation self1 rs x x_grad = LST_modulation self2 rs x x_grad.
Proof. intros Hg. unfold LST_modulation. by rewrite Hg. Qed.

Section LSTFacts.

Variable lstsq : ndarray2 → list R → result lstsq_result.
Variable matrix_I : ndarray2 → result ndarray2.

Lemma computeLST_ext (self1 self2 : Fall) A z :
  int_attr self1 "frmin" = int_attr self2 "frmin" →
  int_attr self1 "frmax" = int_attr self2 "frmax" →
  computeLST lstsq matrix_I self1 A z = computeLST lstsq matrix_I self2 A z.
Proof. intros Hmin Hmax. unfold computeLST. by rewrite Hmin, Hmax. Qed.

(** X10: what a successful [LST] did, stage by stage: the three solves over
    the fit range, the full-range residuals of the gradient solution and
    the acceptance value computed from them, the solve with modulation on
    the sliced outputs of [LST_modulation], and the four extracted
    unknowns. *)
Lemma LST_inv (self self' : Fall) :
  LST lstsq matrix_I self = Ok self' →
  ∃ rs frmin frmax o og oe Agx res_grad1 frminss frmaxss A4 zgrad o4,
    LST_loop self = Ok rs ∧
    int_attr self "frmin" = Ok frmin ∧ int_attr self "frmax" = Ok frmax ∧
    let z := slice frmin frmax (z1_of rs) in
    let A := slice_rows frmin frmax (A1_of rs) in
    computeLST lstsq matrix_I self A z = Ok o ∧
    computeLST lstsq matrix_I self
      (slice_rows frmin frmax (A_grad1_of rs)) z = Ok og ∧
    computeLST lstsq matrix_I self (take_cols 7 A) z = Ok oe ∧
    matmul (A_grad1_of rs) (sol (out_x og)) = Ok Agx ∧
    subtract (z1_of rs) Agx = Ok res_grad1 ∧
    int_attr self "frminss" = Ok frminss ∧
    int_attr self "frmaxss" = Ok frmaxss ∧
    self' !! "res_grad1" = Some (VArray res_grad1) ∧
    self' !! "ssres" = Some (VFloat (LST_ssres res_grad1 frminss frmaxss)) ∧
    LST_modulation self rs (sol (out_x o)) (sol (out_x og))
      = Ok (A4, zgrad) ∧
    computeLST lstsq matrix_I self (slice_rows frmin frmax A4)
      (slice frmin frmax zgrad) = Ok o4 ∧
    self' !! "xgrad4" = Some (VLstsq (out_x o4)) ∧
    self' !! "x_grad" = Some (VLstsq (out_x og)) ∧
    self' !! "tt" = Some (VArray (tt_of rs)) ∧
    self' !! "g0" = VFloat <$> sol (out_x o) !! 2%nat ∧
    self' !! "v0" = VFloat <$> sol (out_x o) !! 1%nat ∧
    self' !! "z0" = VFloat <$> sol (out_x o) !! 0%nat ∧
    self' !! "g0_Gr" = VFloat <$> sol (out_x og) !! 2%nat.
Proof.
  unfold LST. intros H.
  apply bind_Ok in H as (rs & Hrs & H).
  apply bind_Ok in H as (frmin & Hmin & H).
  apply bind_Ok in H as (frmax & Hmax & H).
  apply bind_Ok in H as (o & Ho & H).
  apply bind_Ok in H as (og & Hog & H).
  apply bind_Ok in H as (oe & Hoe & H).
  apply bind_Ok in H as (Agx & HAgx & H).
  apply bind_Ok in H as (res_grad1 & Hres & H).
  apply bind_Ok in H as (frminss & Hminss & H).
  apply bind_Ok in H as (frmaxss & Hmaxss & H).
  apply bind_Ok in H as ([A4 zgrad] & Hmod & H).
  apply bind_Ok in H as (o4 & Ho4 & H).
  apply bind_Ok in H as (A4x & HA4x & H).
  apply bind_Ok in H as (resgrad4 & Hres4 & H).
  apply bind_Ok in H as (g0_Gr & Hg0a & H).
  apply bind_Ok in H as (z0 & Hz0 & H).
  apply bind_Ok in H as (v0 & Hv0 & H).
  apply bind_Ok in H as (g0 & Hg0 & H).
  injection H as <-.
  apply item_Ok in Hg0a, Hz0, Hv0, Hg0.
  rewrite !int_attr_insert_ne in Hmin by done.
  rewrite !int_attr_insert_ne in Hmax by done.
  rewrite !int_attr_insert_ne in Hminss by done.
  rewrite !int_attr_insert_ne in Hmaxss by done.
  erewrite computeLST_ext in Ho, Hog, Hoe, Ho4
    by (rewrite !int_attr_insert_ne by done; reflexivity).
  erewrite LST_modulation_ext in Hmod
    by (rewrite !float_attr_insert_ne by done; reflexivity).
  exists rs, frmin, frmax, o, og, oe, Agx, res_grad1, frminss, frmaxss,
    A4, zgrad, o4.
  rewrite Hg0a, Hz0, Hv0, Hg0. cbv zeta.
  repeat split; try assumption; by simplify_map_eq.
Qed.

(** X11: a fit leaves every method callable: none of the attributes it stores
    carries the name of a method. *)
Lemma LST_keeps_methods (self self' : Fall) :
  LST lstsq matrix_I self = Ok self' →
  (∀ name, name ∈ Fall_methods → self !! name = None) →
  ∀ name, name ∈ Fall_methods → self' !! name = None.
Proof.
  unfold LST. intros H Hfresh name Hin.
  repeat first
    [ apply bind_Ok in H as (? & _ & H)
    | match type of H with
      | context [match ?p with pair _ _ => _ end] => destruct p
      end ].
  injection H as <-.
  specialize (Hfresh name Hin). unfold Fall_methods in Hin.
  repeat (apply elem_of_cons in Hin as [->|Hin]; [by simplify_map_eq|]).
  by apply elem_of_nil in Hin.
Qed.

End LSTFacts.

(** ** Further properties of [Fall] *)

Lemma LST_loop_preprocess_witness :
  ∃ r, LST_loop drop_quarter = Ok [r] ∧
  ∃ Lambda multiplex scaleFactor fringe f rubiFreq ksol c,
    float_attr drop_quarter "Lambda" = Ok Lambda ∧
    float_attr drop_quarter "multiplex" = Ok multiplex ∧
    float_attr drop_quarter "scaleFactor" = Ok scaleFactor ∧
    array_attr drop_quarter "fringe" = Ok fringe ∧
    fringe !! 0%nat = Some f ∧
    float_attr drop_quarter "rubiFreq" = Ok rubiFreq ∧ rubiFreq ≠ 0 ∧
    float_attr drop_quarter "ksol" = Ok ksol ∧
    float_attr drop_quarter "c" = Ok c ∧
    z1_i r = Lambda / 2 * INR 0 * multiplex * scaleFactor ∧
    tt_i r = f * (1e7 / rubiFreq) + ksol * z1_i r / c.
Proof.
  destruct drop_quarter_loop as (r & Hr & _).
  exists r. split; [exact Hr|].
  exact (LST_loop_preprocess drop_quarter [r] 0 r Hr eq_refl).
Defined.

(** X2: at every fringe index the last two columns of both nine-column
    rows are sin(2 pi z1[i] / Lpar) and cos(2 pi z1[i] / Lpar), and the row of
    the five-column matrix written by the loop is 1, tt[i], 0 and the same
    two values. *)
Theorem wavelength_columns (self : Fall) rs i r :
  LST_loop self = Ok rs → rs !! i = Some r →
  ∃ Lpar rowA rowG row4,
    float_attr self "Lpar" = Ok Lpar ∧
    rows (A1_of rs) !! i = Some rowA ∧
    rows (A_grad1_of rs) !! i = Some rowG ∧
    rows (A4_of rs) !! i = Some row4 ∧
    let s := sin (2 * PI * z1_i r / Lpar) in
    let c := cos (2 * PI * z1_i r / Lpar) in
    drop 7 rowA = [s; c] ∧ drop 7 rowG = [s; c] ∧
    rowA !! 0%nat = Some 1 ∧ rowG !! 0%nat = Some 1 ∧
    row4 = [1; tt_i r; 0; s; c].
Proof.
  intros H Hr.
  pose proof (LST_loop_lookup _ _ _ _ H Hr) as Hf.
  apply LST_fringe_inv in Hf
    as (L & m & s & fr & f & rf & k & c & fm & g & Lp & _ & _ & _ & _
        & _ & _ & _ & _ & _ & _ & _ & HLp & _ & _ & Hl & Hg & H4).
  destruct (LST_arrays_lookup rs i r Hr) as (_ & _ & HA & HG & HA4).
  exists Lp, (line r), (line_grad r), (A4_i r).
  rewrite Hl, Hg, H4. cbv zeta. repeat split; auto; congruence.
Qed.

Lemma wavelength_columns_witness :
  ∃ r, LST_loop drop_quarter = Ok [r] ∧
  ∃ Lpar rowA rowG row4,
    float_attr drop_quarter "Lpar" = Ok Lpar ∧
    rows (A1_of [r]) !! 0%nat = Some rowA ∧
    rows (A_grad1_of [r]) !! 0%nat = Some rowG ∧
    rows (A4_of [r]) !! 0%nat = Some row4 ∧
    let s := sin (2 * PI * z1_i r / Lpar) in
    let c := cos (2 * PI * z1_i r / Lpar) in
    drop 7 rowA = [s; c] ∧ drop 7 rowG = [s; c] ∧
    rowA !! 0%nat = Some 1 ∧ rowG !! 0%nat = Some 1 ∧
    row4 = [1; tt_i r; 0; s; c].
Proof.
  destruct drop_quarter_loop as (r & Hr & _).
  exists r. split; [exact Hr|].
  exact (wavelength_columns drop_quarter [r] 0 r Hr eq_refl).
Defined.

Lemma mapM_Raise_head {A B} (f : A → result B) (a : A) (l : list A) e :
  f a = Raise e → mapM f (a :: l) = Raise e.
Proof. intros H. simpl. by rewrite H. Qed.

Lemma int_attr_unset (self : Fall) name :
  self !! name = None → name ∉ Fall_methods →
  int_attr self name = Raise AttributeError.
Proof.
  intros Hno Hm. unfold int_attr, getattr. rewrite Hno.
  by destruct (decide (name ∈ Fall_methods)).
Qed.

Lemma float_attr_unset (self : Fall) name :
  self !! name = None → name ∉ Fall_methods →
  float_attr self name = Raise AttributeError.
Proof.
  intros Hno Hm. unfold float_attr, getattr. rewrite Hno.
  by destruct (decide (name ∈ Fall_methods)).
Qed.

Lemma float_attr_method (self : Fall) name :
  self !! name = None → name ∈ Fall_methods →
  float_attr self name = Raise TypeError.
Proof.
  intros Hno Hm. unfold float_attr, getattr. rewrite Hno.
  by destruct (decide (name ∈ Fall_methods)).
Qed.

Section LSTErrors.

Variable lstsq : ndarray2 → list R → result lstsq_result.
Variable matrix_I : ndarray2 → result ndarray2.

(** X3: on an instance whose fit range was never set, [LST] runs the
    whole fringe loop and then raises AttributeError, before any solve. *)
Theorem LST_unset_fit_range (self : Fall) rs :
  LST_loop self = Ok rs → self !! "frmin" = None →
  LST lstsq matrix_I self = Raise AttributeError.
Proof.
  intros Hrs Hno. unfold LST. rewrite Hrs. cbn [mbind result_bind].
  rewrite (int_attr_unset _ "frmin"); [reflexivity| |].
  - by rewrite lookup_insert_ne.
  - apply (bool_decide_unpack _). by vm_compute.
Qed.

(** X4: with a clock frequency of zero and at least one fringe, [LST]
    raises ZeroDivisionError at the first fringe (the quotient
    1e7 / rubiFreq is taken between Python floats). *)
Theorem LST_zero_clock (self : Fall) (f : R) (fs : list R)
    (Lambda multiplex scaleFactor : R) :
  array_attr self "fringe" = Ok (f :: fs) →
  float_attr self "Lambda" = Ok Lambda →
  float_attr self "multiplex" = Ok multiplex →
  float_attr self "scaleFactor" = Ok scaleFactor →
  float_attr self "rubiFreq" = Ok 0 →
  LST lstsq matrix_I self = Raise ZeroDivisionError.
Proof.
  intros Hfr HL Hm Hs Hrf. unfold LST, LST_loop. rewrite Hfr.
  cbn [mbind result_bind length seq].
  rewrite (mapM_Raise_head _ _ _ ZeroDivisionError); [done|].
  unfold LST_fringe. rewrite HL, Hm, Hs, Hfr. cbn [mbind result_bind].
  change (item (f :: fs) 0) with (Ok f). cbn [mbind result_bind].
  rewrite Hrf. cbn [mbind result_bind].
  by destruct (decide (0 = 0)).
Qed.

End LSTErrors.

Lemma LST_unset_fit_range_witness :
  LST lstsq_1col matrix_I_1x1 drop_quarter = Raise AttributeError.
Proof.
  destruct drop_quarter_loop as (r & Hr & _).
  exact (LST_unset_fit_range lstsq_1col matrix_I_1x1 drop_quarter [r] Hr
           eq_refl).
Defined.

Lemma LST_zero_clock_witness :
  LST lstsq_1col matrix_I_1x1 drop_no_clock = Raise ZeroDivisionError.
Proof.
  apply (LST_zero_clock lstsq_1col matrix_I_1x1 drop_no_clock 1 [] 1 1 1).
  - by apply array_attr_array.
  - by apply float_attr_float.
  - by apply float_attr_float.
  - by apply float_attr_float.
  - by apply float_attr_float.
Defined.

(** X5: a fit range given as 1-based inclusive bounds a..b within the
    fringes is stored so that the slice [frmin:frmax] holds exactly the
    entries a..b, b - a + 1 of them, and the stored difference
    frmax - frmin is that count. *)
Theorem setFrRange_selects (self : Fall) (A : Type) (l : list A) (a b : Z) :
  (1 ≤ a ≤ b)%Z → (b ≤ Z.of_nat (length l))%Z →
  ∃ frmin frmax,
    int_attr (setFrRange self a b) "frmin" = Ok frmin ∧
    int_attr (setFrRange self a b) "frmax" = Ok frmax ∧
    slice frmin frmax l
      = take (Z.to_nat (b - a + 1)) (drop (Z.to_nat (a - 1)) l) ∧
    Z.of_nat (length (slice frmin frmax l)) = (frmax - frmin)%Z ∧
    (frmax - frmin = b - a + 1)%Z.
Proof.
  intros Ha Hb. exists (a - 1)%Z, b. unfold setFrRange.
  split; [apply int_attr_int; by simplify_map_eq|].
  split; [apply int_attr_int; by simplify_map_eq|].
  destruct (slice_in_range l (a - 1) b) as [Hs Hl]; [lia|lia|].
  split; [rewrite Hs; do 2 f_equal; lia|].
  rewrite Hl. lia.
Qed.

Lemma setFrRange_selects_witness :
  ∃ frmin frmax,
    int_attr (setFrRange init 2 3) "frmin" = Ok frmin ∧
    int_attr (setFrRange init 2 3) "frmax" = Ok frmax ∧
    slice frmin frmax [10; 20; 30; 40]
      = take (Z.to_nat (3 - 2 + 1)) (drop (Z.to_nat (2 - 1)) [10; 20; 30; 40]) ∧
    Z.of_nat (length (slice frmin frmax [10; 20; 30; 40]))
      = (frmax - frmin)%Z ∧
    (frmax - frmin = 3 - 2 + 1)%Z.
Proof.
  apply (setFrRange_selects init R [10; 20; 30; 40] 2 3).
  - lia.
  - simpl. lia.
Defined.

(** X6: a lower bound of 0 is stored as -1 and counts from the end: the
    fit range is then empty when frmax is below the number of fringes, and
    holds only the last fringe otherwise. *)
Theorem setFrRange_zero_lower (self : Fall) (A : Type) (l : list A) (b : Z) :
  (0 ≤ b)%Z →
  ∃ frmax,
    int_attr (setFrRange self 0 b) "frmin" = Ok (-1)%Z ∧
    int_attr (setFrRange self 0 b) "frmax" = Ok frmax ∧
    slice (-1) frmax l
      = if decide (Z.of_nat (length l) ≤ b)%Z
        then drop (length l - 1) l else [].
Proof.
  intros Hb. exists b. unfold setFrRange.
  split; [apply int_attr_int; by simplify_map_eq|].
  split; [apply int_attr_int; by simplify_map_eq|].
  unfold slice, slice_index. change (-1 <? 0)%Z with true. cbv iota.
  destruct (Z.ltb_spec b 0); [lia|].
  destruct (decide (Z.of_nat (length l) ≤ b)%Z) as [Hl|Hl].
  - rewrite Z.min_r by lia.
    replace (Z.to_nat (Z.max 0 (-1 + Z.of_nat (length l))))
      with (length l - 1)%nat by lia.
    apply take_ge. rewrite length_drop. lia.
  - replace (Z.to_nat _) with 0%nat by lia. done.
Qed.

Lemma setFrRange_zero_lower_witness :
  ∃ frmax,
    int_attr (setFrRange init 0 3) "frmin" = Ok (-1)%Z ∧
    int_attr (setFrRange init 0 3) "frmax" = Ok frmax ∧
    slice (-1) frmax [10; 20; 30; 40]
      = if decide (Z.of_nat (length [10; 20; 30; 40]) ≤ 3)%Z
        then drop (length [10; 20; 30; 40] - 1) [10; 20; 30; 40] else [].
Proof. apply (setFrRange_zero_lower init R [10; 20; 30; 40] 3). lia. Defined.

Lemma LST_ssres_divisor_witness :
  let ress := slice 0 4 [1; -1; 1; -1] in
  length ress = Z.to_nat (4 - 0) ∧
  LST_ssres [1; -1; 1; -1] 0 4
    = sqrt (dot ress ress / (INR (length ress) + 1)).
Proof.
  apply (LST_ssres_divisor [1; -1; 1; -1] 0 4).
  - lia.
  - simpl. lia.
Defined.

(** X9: when [setFRssRange] is called with its bounds in (min, max)
    order, 0 <= min < max and max is not min + 2, the statistics slice is
    empty and the acceptance value [ssres] is 0 whatever the residuals. *)
Theorem ssres_swapped_zero (self : Fall) (lo hi : Z) (res_grad1 : list R) :
  (0 ≤ lo < hi)%Z → hi ≠ (lo + 2)%Z →
  ∃ frminss frmaxss,
    int_attr (setFRssRange self lo hi) "frminss" = Ok frminss ∧
    int_attr (setFRssRange self lo hi) "frmaxss" = Ok frmaxss ∧
    slice frminss frmaxss res_grad1 = [] ∧
    LST_ssres res_grad1 frminss frmaxss = 0.
Proof.
  intros Hr _.
  destruct (setFRssRange_positional_slice self lo hi res_grad1 Hr)
    as (frminss & frmaxss & Hmin & Hmax & Hs).
  exists frminss, frmaxss. repeat split; try done.
  unfold LST_ssres. rewrite Hs. unfold dot. simpl.
  unfold Rdiv. rewrite Rmult_0_l. apply sqrt_0.
Qed.

Lemma ssres_swapped_zero_witness :
  ∃ frminss frmaxss,
    int_attr (setFRssRange init 1 4) "frminss" = Ok frminss ∧
    int_attr (setFRssRange init 1 4) "frmaxss" = Ok frmaxss ∧
    slice frminss frmaxss [1; -1; 1; -1] = [] ∧
    LST_ssres [1; -1; 1; -1] frminss frmaxss = 0.
Proof. apply (ssres_swapped_zero init 1 4 [1; -1; 1; -1]); lia. Defined.

Lemma computeLST_empty_residuals_witness :
  computeLST lstsq_diag matrix_I_diag fit_1_2 eye2 [1; 2] = Raise ValueError.
Proof.
  eapply (computeLST_empty_residuals lstsq_diag matrix_I_diag fit_1_2 eye2
            [1; 2] _ _ 0 2).
  - reflexivity.
  - reflexivity.
  - reflexivity.
  - reflexivity.
  - simpl. lia.
Defined.

(** X12: the effective height stored by [effectiveHeight] is the height
    at which the two fits agree: for a nonzero gradient,
    g0_Gr + gradient * h = g0. *)
Theorem effectiveHeight_agreement (self : Fall) (g0 g0_Gr gradient : R) :
  float_attr self "g0_Gr" = Ok g0_Gr →
  float_attr self "g0" = Ok g0 →
  float_attr self "gradient" = Ok gradient →
  gradient ≠ 0 →
  ∃ self' h, effectiveHeight self = Ok self' ∧
    self' !! "h" = Some (VFloat h) ∧ g0_Gr + gradient * h = g0.
Proof.
  intros Ha H0 Hg Hnz. unfold effectiveHeight. rewrite Ha, H0, Hg.
  eexists _, _. split; [reflexivity|].
  split; [apply lookup_insert_eq|]. field. exact Hnz.
Qed.

Lemma effectiveHeight_agreement_witness :
  ∃ self' h, effectiveHeight fitted_fixture = Ok self' ∧
    self' !! "h" = Some (VFloat h) ∧
    9800000500 + -100 * 3e9 * 1e-8 * h = 9800000000.
Proof.
  apply (effectiveHeight_agreement fitted_fixture 9800000000 9800000500
           (-100 * 3e9 * 1e-8)).
  - by apply float_attr_float.
  - by apply float_attr_float.
  - by apply float_attr_float.
  - lra.
Defined.

(** X13: the derived-quantity methods depend on each other's stored
    results: on a fitted drop where [effectiveHeight] has not run,
    [effectiveHeightTop] and [effectivePosition] raise AttributeError (no
    h); where [effectiveHeightTop] has not run, [gTop] raises
    AttributeError (no Grad); and where [gTop] has not run, [gTopCor]
    raises TypeError, because gTop is then still the method. *)
Theorem derived_call_order (self : Fall) (g0_Gr v0 gradient : R)
    (tide load baro polar : R) :
  float_attr self "g0_Gr" = Ok g0_Gr →
  float_attr self "v0" = Ok v0 →
  float_attr self "gradient" = Ok gradient →
  self !! "h" = None → self !! "Grad" = None → self !! "gTop" = None →
  effectiveHeightTop self = Raise AttributeError ∧
  effectivePosition self = Raise AttributeError ∧
  gTop self = Raise AttributeError ∧
  gTopCor tide load baro polar self = Raise TypeError.
Proof.
  intros Ha Hv Hg Hh HG HT. repeat split.
  - unfold effectiveHeightTop. rewrite Hv, Ha. cbn [mbind result_bind].
    rewrite (float_attr_unset _ "h"); [reflexivity| |].
    + by rewrite lookup_insert_ne.
    + apply (bool_decide_unpack _). by vm_compute.
  - unfold effectivePosition.
    rewrite (float_attr_unset _ "h"); [reflexivity|done|].
    apply (bool_decide_unpack _). by vm_compute.
  - unfold gTop. rewrite Ha, Hg. cbn [mbind result_bind].
    rewrite (float_attr_unset _ "Grad"); [reflexivity|done|].
    apply (bool_decide_unpack _). by vm_compute.
  - unfold gTopCor.
    rewrite (float_attr_method _ "gTop"); [reflexivity|done|].
    apply (bool_decide_unpack _). by vm_compute.
Qed.

Lemma derived_call_order_witness :
  effectiveHeightTop fitted_fixture = Raise AttributeError ∧
  effectivePosition fitted_fixture = Raise AttributeError ∧
  gTop fitted_fixture = Raise AttributeError ∧
  gTopCor 1 2 3 4 fitted_fixture = Raise TypeError.
Proof.
  apply (derived_call_order fitted_fixture 9800000500 140000
           (-100 * 3e9 * 1e-8) 1 2 3 4);
    try (by apply float_attr_float); reflexivity.
Defined.

(** ** When a record is written *)

Lemma mapM_Raise_at {A B} (f : A → result B) (l1 l2 : list A) (a : A) e :
  (∀ b, b ∈ l1 → ∃ c, f b = Ok c) → f a = Raise e →
  mapM f (l1 ++ a :: l2) = Raise e.
Proof.
  intros Hok Ha. induction l1 as [|b l1 IH]; simpl.
  - by rewrite Ha.
  - destruct (Hok b) as [c Hc]; [by left|]. rewrite Hc. simpl.
    rewrite IH; [done|]. intros b' Hb'. apply Hok. by right.
Qed.

Lemma printResult_pairs_short (X std : list R) :
  (length std < length X)%nat →
  mapM (λ i, x ← item X i; s ← item std i; Ok [CFloat x; CFloat s])
       (seq 0 (length X)) = Raise IndexError.
Proof.
  intros Hl.
  replace (length X) with (length std + S (length X - S (length std)))%nat
    at 1 by lia.
  rewrite seq_app. cbn [seq]. apply mapM_Raise_at.
  - intros b Hb. apply elem_of_seq in Hb.
    destruct (lookup_lt_is_Some_2 X b) as [x Hx]; [lia|].
    destruct (lookup_lt_is_Some_2 std b) as [s Hs]; [lia|].
    apply item_Ok in Hx, Hs. rewrite Hx. simpl. rewrite Hs. simpl. eauto.
  - destruct (lookup_lt_is_Some_2 X (0 + length std)) as [x Hx]; [lia|].
    apply item_Ok in Hx. rewrite Hx. simpl.
    unfold item. by rewrite lookup_ge_None_2 by lia.
Qed.

Lemma printResult_pairs_all (X std : list R) :
  (length X ≤ length std)%nat →
  mapM (λ i, x ← item X i; s ← item std i; Ok [CFloat x; CFloat s])
       (seq 0 (length X))
  = Ok (zip_with (λ x s, [CFloat x; CFloat s]) X std).
Proof. intros Hl. by apply (printResult_pairs X std [] []). Qed.

Lemma length_concat_pairs (X std : list R) :
  (length X ≤ length std)%nat →
  length (concat (zip_with (λ x s, [CFloat x; CFloat s]) X std))
  = (2 * length X)%nat.
Proof.
  revert std. induction X as [|x X IH]; intros [|s std] Hl; simpl in *;
    try lia.
  rewrite IH by lia. lia.
Qed.

(** X14: [printResult] writes a row exactly when m0 is non-empty and the
    solution has at least three unknowns and a deviation for each; the row
    then has 3 + 2 len(X) entries.  In every other case it raises
    IndexError and writes nothing. *)
Theorem printResult_outcome (X std : list R) (set drop : Z) (m0 : list R) :
  match printResult X std set drop m0 with
  | Ok row =>
      m0 ≠ [] ∧ (3 ≤ length X ≤ length std)%nat ∧
      length row = (3 + 2 * length X)%nat
  | Raise e =>
      e = IndexError ∧
      (m0 = [] ∨ (length X < 3)%nat ∨ (length std < length X)%nat)
  end.
Proof.
  destruct m0 as [|m00 m0t]; [simpl; auto|].
  unfold printResult.
  change (item (m00 :: m0t) 0) with (Ok m00). cbn [mbind result_bind].
  destruct (decide (length std < length X)%nat) as [Hs|Hs].
  { rewrite printResult_pairs_short by done. simpl. auto. }
  rewrite printResult_pairs_all by lia. cbn [mbind result_bind].
  destruct X as [|x0 [|x1 [|x2 Xt]]]; destruct std as [|s0 [|s1 [|s2 st]]];
    simpl in Hs; try lia;
    try (simpl; split; [reflexivity|right; left; lia]).
  cbn -[concat zip_with]. split; [done|]. split; [simpl; lia|].
  simpl. rewrite length_concat_pairs by (simpl in Hs; lia). lia.
Qed.

(** ** Running the whole fit *)

Lemma slice_length_same {A B} (l1 : list A) (l2 : list B) (lo hi : Z) :
  length l1 = length l2 →
  length (slice lo hi l1) = length (slice lo hi l2).
Proof.
  intros Hl. unfold slice. rewrite !length_take, !length_drop, Hl. done.
Qed.

Lemma LST_modulation_shape (self : Fall) rs x x_grad A4 zgrad :
  LST_modulation self rs x x_grad = Ok (A4, zgrad) →
  shape1 A4 = 5%nat ∧ shape0 A4 = length rs ∧ length zgrad = length rs.
Proof.
  intros H. unfold LST_modulation in H.
  apply bind_Ok in H as (col2 & Hcol2 & H).
  apply bind_Ok in H as (A4' & HA4 & H).
  apply bind_Ok in H as (zg & Hzg & H).
  apply bind_Ok in H as (modkor & Hmod & H).
  apply bind_Ok in H as (zgrad' & Hsub & H).
  injection H as -> ->.
  apply mapM_Ok_length in Hcol2, Hzg.
  unfold set_col in HA4. destruct (decide _) as [Hc|]; [|discriminate].
  injection HA4 as <-.
  unfold matmul in Hmod. destruct (decide _); [|discriminate].
  injection Hmod as <-.
  unfold subtract in Hsub. rewrite broadcast_same_length in Hsub
    by (simpl; by rewrite !length_map).
  injection Hsub as <-.
  unfold shape0. simpl. rewrite !length_zip_with, !length_map, Hcol2.
  repeat split; lia.
Qed.

Lemma subtract_same_length (u v : list R) :
  length u = length v → subtract u v = Ok (zip_with Rminus u v).
Proof. apply broadcast_same_length. Qed.

Lemma Ok_exists {A} (m : result A) :
  match m with Ok _ => True | Raise _ => False end → ∃ a, m = Ok a.
Proof. destruct m; [eauto|done]. Qed.

Section LSTRuns.

Variable lstsq : ndarray2 → list R → result lstsq_result.
Variable matrix_I : ndarray2 → result ndarray2.

Hypothesis lstsq_answers : ∀ A z, ∃ x rss,
  lstsq A z = Ok (Lstsq x [rss]) ∧ length x = shape1 A.
Hypothesis matrix_I_answers : ∀ M, ∃ C, matrix_I M = Ok C.

Lemma computeLST_answers (self : Fall) A z frmin frmax :
  int_attr self "frmin" = Ok frmin → int_attr self "frmax" = Ok frmax →
  length z = shape0 A →
  ∃ o, computeLST lstsq matrix_I self A z = Ok o ∧
       length (sol (out_x o)) = shape1 A.
Proof.
  intros Hmin Hmax Hz. unfold computeLST.
  destruct (lstsq_answers A z) as (x & rss & Hx & Hxl). rewrite Hx.
  cbn [mbind result_bind].
  unfold dot2. destruct (decide _) as [_|Hn]; [|by destruct Hn].
  cbn [mbind result_bind].
  destruct (matrix_I_answers
              {| shape1 := shape1 A;
                 rows := map (λ r, map (λ j, dot r (col j A))
                                       (seq 0 (shape1 A))) (rows (T A)) |})
    as [C HC].
  rewrite HC, Hmax, Hmin. cbn [mbind result_bind residuals map].
  unfold multiply. rewrite broadcast_singleton_r. cbn [mbind result_bind].
  rewrite matmul_Ok by done. cbn [mbind result_bind].
  unfold subtract. rewrite broadcast_same_length
    by (rewrite length_map; exact Hz).
  cbn [mbind result_bind]. eexists. split; [reflexivity|]. done.
Qed.

(** With a solver that always answers, a fully calibrated drop is fitted
    to the end. *)
Lemma LST_answers (self : Fall) rs frmin frmax frminss frmaxss gradient :
  LST_loop self = Ok rs →
  int_attr self "frmin" = Ok frmin → int_attr self "frmax" = Ok frmax →
  int_attr self "frminss" = Ok frminss →
  int_attr self "frmaxss" = Ok frmaxss →
  float_attr self "gradient" = Ok gradient →
  ∃ self', LST lstsq matrix_I self = Ok self'.
Proof.
  intros Hrs Hmin Hmax Hminss Hmaxss Hg.
  assert (Hz : ∀ lo hi (M : list fringe_row → ndarray2) f,
             M = (λ rs, Array2 (shape1 (M rs)) (map f rs)) →
             length (slice lo hi (z1_of rs))
             = shape0 (slice_rows lo hi (M rs))).
  { intros lo hi M f HM. rewrite HM. unfold shape0, slice_rows. simpl.
    apply slice_length_same. unfold z1_of. by rewrite !length_map. }
  apply Ok_exists.
  unfold LST. rewrite Hrs. cbn [mbind result_bind].
  rewrite !int_attr_insert_ne by done. rewrite Hmin, Hmax.
  cbn [mbind result_bind].
  destruct (computeLST_answers (<["tt":=VArray (tt_of rs)]> self)
              (slice_rows frmin frmax (A1_of rs))
              (slice frmin frmax (z1_of rs)) frmin frmax)
    as (o & Ho & Hlo);
    [by rewrite int_attr_insert_ne|by rewrite int_attr_insert_ne
    |by apply (Hz _ _ A1_of line)|].
  rewrite Ho. cbn [mbind result_bind].
  match goal with
  | |- context [computeLST lstsq matrix_I ?s ?A ?z] =>
      destruct (computeLST_answers s A z frmin frmax) as (og & Hog & Hlog);
        [by rewrite !int_attr_insert_ne|by rewrite !int_attr_insert_ne
        |by apply (Hz _ _ A_grad1_of line_grad)|]
  end.
  rewrite Hog. cbn [mbind result_bind].
  match goal with
  | |- context [computeLST lstsq matrix_I ?s ?A ?z] =>
      destruct (computeLST_answers s A z frmin frmax) as (oe & Hoe & Hloe);
        [by rewrite !int_attr_insert_ne|by rewrite !int_attr_insert_ne| |]
  end.
  { unfold shape0, take_cols, slice_rows. simpl. rewrite length_map.
    apply slice_length_same. unfold z1_of. by rewrite !length_map. }
  rewrite Hoe. cbn [mbind result_bind].
  rewrite matmul_Ok by (by rewrite Hlog). cbn [mbind result_bind].
  rewrite (subtract_same_length (z1_of rs))
    by (unfold z1_of; simpl; by rewrite !length_map).
  cbn [mbind result_bind].
  rewrite !int_attr_insert_ne by done. rewrite Hminss, Hmaxss.
  cbn [mbind result_bind].
  match goal with
  | |- context [LST_modulation ?s rs ?x ?xg] =>
      destruct (LST_modulation_Ok s rs x xg gradient) as (A4 & zgrad & Hmod);
        [by rewrite Hlo|by rewrite Hlog
        |by rewrite !float_attr_insert_ne|]
  end.
  rewrite Hmod. cbn [mbind result_bind].
  destruct (LST_modulation_shape _ _ _ _ _ _ Hmod) as (HA41 & HA40 & Hzg).
  match goal with
  | |- context [computeLST lstsq matrix_I ?s ?A ?z] =>
      destruct (computeLST_answers s A z frmin frmax) as (o4 & Ho4 & Hlo4);
        [by rewrite !int_attr_insert_ne|by rewrite !int_attr_insert_ne| |]
  end.
  { unfold shape0, slice_rows. simpl. apply slice_length_same.
    unfold shape0 in HA40. congruence. }
  rewrite Ho4. cbn [mbind result_bind].
  rewrite matmul_Ok by (by rewrite Hlo4). cbn [mbind result_bind].
  rewrite (subtract_same_length zgrad)
    by (rewrite length_map; unfold shape0 in HA40; congruence).
  cbn [mbind result_bind].
  simpl in Hlo, Hlog.
  destruct (sol (out_x o)) as [|x0 [|x1 [|x2 ?]]]; try discriminate.
  destruct (sol (out_x og)) as [|g0 [|g1 [|g2 ?]]]; try discriminate.
  exact I.
Qed.

End LSTRuns.

Lemma drop_ranged_loop : ∃ r, LST_loop drop_ranged = Ok [r].
Proof.
  destruct drop_quarter_loop as (r & Hr & _). exists r.
  unfold LST_loop, LST_fringe in *. unfold drop_ranged, setFRssRange, setFrRange.
  unfold float_attr, array_attr in *.
  by rewrite !getattr_insert_ne by done.
Qed.

Lemma drop_ranged_LST :
  ∃ self', LST lstsq_zero matrix_I_same drop_ranged = Ok self'.
Proof.
  destruct drop_ranged_loop as (r & Hr).
  apply (LST_answers lstsq_zero matrix_I_same) with [r] 0%Z 1%Z 0%Z 1%Z
    (-100 * 3 * 1e-8).
  - intros A z. eexists _, _. split; [reflexivity|]. apply repeat_length.
  - intros M. by eexists.
  - exact Hr.
  - by apply int_attr_int.
  - by apply int_attr_int.
  - by apply int_attr_int.
  - by apply int_attr_int.
  - by apply float_attr_float.
Qed.

Lemma LST_inv_witness :
  ∃ self', LST lstsq_zero matrix_I_same drop_ranged = Ok self' ∧
  ∃ rs frmin frmax o og oe Agx res_grad1 frminss frmaxss A4 zgrad o4,
    LST_loop drop_ranged = Ok rs ∧
    int_attr drop_ranged "frmin" = Ok frmin ∧
    int_attr drop_ranged "frmax" = Ok frmax ∧
    let z := slice frmin frmax (z1_of rs) in
    let A := slice_rows frmin frmax (A1_of rs) in
    computeLST lstsq_zero matrix_I_same drop_ranged A z = Ok o ∧
    computeLST lstsq_zero matrix_I_same drop_ranged
      (slice_rows frmin frmax (A_grad1_of rs)) z = Ok og ∧
    computeLST lstsq_zero matrix_I_same drop_ranged (take_cols 7 A) z
      = Ok oe ∧
    matmul (A_grad1_of rs) (sol (out_x og)) = Ok Agx ∧
    subtract (z1_of rs) Agx = Ok res_grad1 ∧
    int_attr drop_ranged "frminss" = Ok frminss ∧
    int_attr drop_ranged "frmaxss" = Ok frmaxss ∧
    self' !! "res_grad1" = Some (VArray res_grad1) ∧
    self' !! "ssres" = Some (VFloat (LST_ssres res_grad1 frminss frmaxss)) ∧
    LST_modulation drop_ranged rs (sol (out_x o)) (sol (out_x og))
      = Ok (A4, zgrad) ∧
    computeLST lstsq_zero matrix_I_same drop_ranged
      (slice_rows frmin frmax A4) (slice frmin frmax zgrad) = Ok o4 ∧
    self' !! "xgrad4" = Some (VLstsq (out_x o4)) ∧
    self' !! "x_grad" = Some (VLstsq (out_x og)) ∧
    self' !! "tt" = Some (VArray (tt_of rs)) ∧
    self' !! "g0" = VFloat <$> sol (out_x o) !! 2%nat ∧
    self' !! "v0" = VFloat <$> sol (out_x o) !! 1%nat ∧
    self' !! "z0" = VFloat <$> sol (out_x o) !! 0%nat ∧
    self' !! "g0_Gr" = VFloat <$> sol (out_x og) !! 2%nat.
Proof.
  destruct drop_ranged_LST as (self' & H). exists self'.
  split; [exact H|].
  exact (LST_inv lstsq_zero matrix_I_same drop_ranged self' H).
Defined.

Lemma drop_ranged_fresh name :
  name ∈ Fall_methods → drop_ranged !! name = None.
Proof.
  intros Hin. unfold Fall_methods in Hin.
  repeat (apply elem_of_cons in Hin as [->|Hin]; [reflexivity|]).
  by apply elem_of_nil in Hin.
Qed.

Lemma LST_keeps_methods_witness :
  ∃ self', LST lstsq_zero matrix_I_same drop_ranged = Ok self' ∧
           ∀ name, name ∈ Fall_methods → self' !! name = None.
Proof.
  destruct drop_ranged_LST as (self' & H). exists self'.
  split; [exact H|].
  exact (LST_keeps_methods lstsq_zero matrix_I_same drop_ranged self' H
           drop_ranged_fresh).
Defined.

(** ** Dates *)

Lemma trunc_quotient (a b : Z) :
  (0 ≤ a)%Z → (0 < b)%Z → trunc (IZR a / IZR b) = (a / b)%Z.
Proof.
  intros Ha Hb.
  assert (Hb' : 0 < IZR b) by (by apply IZR_lt).
  assert (Ha' : 0 <= IZR a) by (by apply IZR_le).
  unfold trunc. destruct (decide (IZR a / IZR b < 0)) as [Hneg|_].
  { exfalso. apply (Rlt_not_le _ _ Hneg).
    apply Rmult_le_pos; [done|]. left. by apply Rinv_0_lt_compat. }
  apply Zfloor_eq.
  pose proof (Z.div_mod a b ltac:(lia)) as Hdm.
  pose proof (Z.mod_pos_bound a b Hb) as Hm.
  assert (HR : IZR a = IZR b * IZR (a / b) + IZR (a mod b)).
  { rewrite <- mult_IZR, <- plus_IZR. by f_equal. }
  assert (0 <= IZR (a mod b) < IZR b) as [Hm1 Hm2].
  { split; [apply IZR_le|apply IZR_lt]; lia. }
  split.
  - apply (Rmult_le_reg_l (IZR b)); [done|].
    replace (IZR b * (IZR a / IZR b)) with (IZR a) by (field; lra). lra.
  - apply (Rmult_lt_reg_l (IZR b)); [done|].
    replace (IZR b * (IZR a / IZR b)) with (IZR a) by (field; lra). lra.
Qed.

(** For a date of the Gregorian calendar from 1583 on, the float formula
    is this integer one. *)
Lemma date_to_mjd_integer (year month : Z) (day : R) :
  (1583 ≤ year)%Z → (1 ≤ month ≤ 12)%Z →
  let yearp := (if decide (month ≤ 2)%Z then year - 1 else year)%Z in
  let monthp := (if decide (month ≤ 2)%Z then month + 12 else month)%Z in
  date_to_mjd year month day
  = IZR (2 - yearp / 100 + yearp / 100 / 4 + 1461 * yearp / 4
         + 306001 * (monthp + 1) / 10000 - 679006) + day.
Proof.
  intros Hy Hm yearp monthp. unfold date_to_mjd.
  assert (Hyp : (if decide (month = 1 ∨ month = 2)%Z then (year - 1)%Z
                 else year) = yearp).
  { subst yearp. repeat destruct (decide _); lia. }
  assert (Hmp : (if decide (month = 1 ∨ month = 2)%Z then (month + 12)%Z
                 else month) = monthp).
  { subst monthp. repeat destruct (decide _); lia. }
  rewrite Hyp, Hmp.
  assert (Hyp0 : (1582 ≤ yearp)%Z) by (subst yearp; destruct (decide _); lia).
  assert (Hmp0 : (3 ≤ monthp ≤ 14)%Z) by (subst monthp; destruct (decide _); lia).
  destruct (decide ((year < 1582)%Z ∨ _)) as [Hold|_].
  { destruct Hold as [Hold|[Hold|Hold]]; [lia|destruct Hold; lia
                                          |destruct Hold; lia]. }
  destruct (decide (yearp < 0)%Z); [lia|].
  replace (IZR yearp / 100) with (IZR yearp / IZR 100) by done.
  rewrite trunc_quotient by lia.
  replace (IZR (yearp / 100) / 4) with (IZR (yearp / 100) / IZR 4) by done.
  rewrite trunc_quotient by (try apply Z.div_pos; lia).
  replace (365.25 * IZR yearp) with (IZR (1461 * yearp) / IZR 4)
    by (rewrite mult_IZR; lra).
  rewrite trunc_quotient by lia.
  replace (30.6001 * IZR (monthp + 1))
    with (IZR (306001 * (monthp + 1)) / IZR 10000)
    by (rewrite mult_IZR; lra).
  rewrite trunc_quotient by lia.
  rewrite !minus_IZR, !plus_IZR. lra.
Qed.

(** X15: from 1583 on, [date_to_mjd] follows the Gregorian calendar:
    the same day of the next month is later by the number of days of the
    month, 28 or 29 for February by the leap-year rule (every fourth year,
    except centuries not divisible by 400). *)
Theorem date_to_mjd_next_month (year month : Z) (day : R) :
  (1583 ≤ year)%Z → (1 ≤ month ≤ 12)%Z →
  let year' := if decide (month = 12)%Z then (year + 1)%Z else year in
  let month' := if decide (month = 12)%Z then 1%Z else (month + 1)%Z in
  date_to_mjd year' month' day - date_to_mjd year month day
  = IZR (days_in_month year month).
Proof.
  intros Hy Hm year' month'.
  rewrite (date_to_mjd_integer year month) by done.
  assert (1583 ≤ year')%Z
    by (subst year'; destruct (decide (month = 12)%Z); lia).
  assert (1 ≤ month' ≤ 12)%Z
    by (subst month'; destruct (decide (month = 12)%Z); lia).
  rewrite (date_to_mjd_integer year' month') by done.
  match goal with
  | |- IZR ?a + _ - (IZR ?b + _) = IZR ?c =>
      cut (a - b = c)%Z;
        [intros <-; rewrite (minus_IZR a b); lra|]
  end.
  unfold days_in_month, leap_year. subst year' month'.
  assert (month = 1 ∨ month = 2 ∨ month = 3 ∨ month = 4 ∨ month = 5
          ∨ month = 6 ∨ month = 7 ∨ month = 8 ∨ month = 9 ∨ month = 10
          ∨ month = 11 ∨ month = 12)%Z as Hcases by lia.
  repeat (destruct Hcases as [->|Hcases]); try subst month;
    repeat (case_decide; try lia); try case_bool_decide;
    change (306001 * (1 + 12 + 1) / 10000)%Z with 428%Z;
    change (306001 * (2 + 12 + 1) / 10000)%Z with 459%Z;
    change (306001 * (1 + 1 + 12 + 1) / 10000)%Z with 459%Z;
    change (306001 * (2 + 1 + 1) / 10000)%Z with 122%Z;
    change (306001 * (3 + 1) / 10000)%Z with 122%Z;
    change (306001 * (3 + 1 + 1) / 10000)%Z with 153%Z;
    change (306001 * (4 + 1) / 10000)%Z with 153%Z;
    change (306001 * (4 + 1 + 1) / 10000)%Z with 183%Z;
    change (306001 * (5 + 1) / 10000)%Z with 183%Z;
    change (306001 * (5 + 1 + 1) / 10000)%Z with 214%Z;
    change (306001 * (6 + 1) / 10000)%Z with 214%Z;
    change (306001 * (6 + 1 + 1) / 10000)%Z with 244%Z;
    change (306001 * (7 + 1) / 10000)%Z with 244%Z;
    change (306001 * (7 + 1 + 1) / 10000)%Z with 275%Z;
    change (306001 * (8 + 1) / 10000)%Z with 275%Z;
    change (306001 * (8 + 1 + 1) / 10000)%Z with 306%Z;
    change (306001 * (9 + 1) / 10000)%Z with 306%Z;
    change (306001 * (9 + 1 + 1) / 10000)%Z with 336%Z;
    change (306001 * (10 + 1) / 10000)%Z with 336%Z;
    change (306001 * (10 + 1 + 1) / 10000)%Z with 367%Z;
    change (306001 * (11 + 1) / 10000)%Z with 367%Z;
    change (306001 * (11 + 1 + 1) / 10000)%Z with 397%Z;
    change (306001 * (12 + 1) / 10000)%Z with 397%Z;
    change (306001 * (1 + 12 + 1) / 10000)%Z with 428%Z;
    try lia; Z.to_euclidean_division_equations; lia.
Qed.

Lemma date_to_mjd_next_month_witness :
  let year' := if decide (2 = 12)%Z then (2024 + 1)%Z else 2024%Z in
  let month' := if decide (2 = 12)%Z then 1%Z else (2 + 1)%Z in
  date_to_mjd year' month' 1 - date_to_mjd 2024 2 1
  = IZR (days_in_month 2024 2).
Proof. apply (date_to_mjd_next_month 2024 2 1); lia. Defined.

(** X16: at the change of calendar the function drops ten days: a day
    of October 1582 from the 15th on is d - d' - 10 after a day d' of the
    same month before the 15th, so 15 October follows 4 October. *)
Theorem date_to_mjd_calendar_change (d d' : R) :
  d' < 15 → 15 <= d →
  date_to_mjd 1582 10 d - date_to_mjd 1582 10 d' = d - d' - 10.
Proof.
  intros Hd' Hd. unfold date_to_mjd.
  destruct (decide (10 = 1 ∨ 10 = 2)%Z) as [?|_]; [lia|].
  destruct (decide (1582 < 0)%Z) as [?|_]; [lia|].
  destruct (decide (_ ∨ _ ∨ _ ∧ _ ∧ d < 15)) as [Hc|_].
  { destruct Hc as [?|[[_ ?]|(_ & _ & ?)]]; [lia|lia|lra]. }
  destruct (decide (_ ∨ _ ∨ _ ∧ _ ∧ d' < 15)) as [_|Hc].
  2:{ destruct Hc. right. right. done. }
  replace (IZR 1582 / 100) with (IZR 1582 / IZR 100) by done.
  rewrite trunc_quotient by lia.
  change (1582 / 100)%Z with 15%Z.
  replace (IZR 15 / 4) with (IZR 15 / IZR 4) by done.
  rewrite trunc_quotient by lia.
  change (2 - 15 + 15 / 4)%Z with (-10)%Z. lra.
Qed.

Lemma date_to_mjd_calendar_change_witness :
  date_to_mjd 1582 10 15 - date_to_mjd 1582 10 4 = 15 - 4 - 10.
Proof. apply (date_to_mjd_calendar_change 15 4); lra. Defined.

(** The docstring's example: the value returned for 17.25 February 1985
    is the modified Julian date 46113.25, not the Julian day 2446113.75 the
    docstring prints. *)
Example date_to_mjd_docstring : date_to_mjd 1985 2 17.25 = 46113.25.
Proof.
  rewrite date_to_mjd_integer by lia. cbv zeta.
  destruct (decide (2 ≤ 2)%Z) as [_|?]; [|lia].
  change (2 - (1985 - 1) / 100 + (1985 - 1) / 100 / 4
          + 1461 * (1985 - 1) / 4 + 306001 * (2 + 12 + 1) / 10000
          - 679006)%Z with 46096%Z.
  lra.
Qed.

(** The epoch of the modified Julian date, 17 November 1858. *)
Example date_to_mjd_epoch : date_to_mjd 1858 11 17 = 0.
Proof.
  rewrite date_to_mjd_integer by lia. cbv zeta.
  destruct (decide (11 ≤ 2)%Z) as [?|_]; [lia|].
  change (2 - 1858 / 100 + 1858 / 100 / 4 + 1461 * 1858 / 4
          + 306001 * (11 + 1) / 10000 - 679006)%Z with (-17)%Z.
  lra.
Qed.

(** ** Moving average and root sum of squares *)

Lemma foldr_Rplus_replicate (c : R) (k : nat) :
  foldr Rplus 0 (replicate k c) = INR k * c.
Proof.
  induction k as [|k IH]; [simpl; lra|].
  cbn [replicate foldr]. rewrite IH, S_INR. lra.
Qed.

Lemma mean_replicate (c : R) (k : nat) : mean (replicate (S k) c) = c.
Proof.
  unfold mean. rewrite foldr_Rplus_replicate, length_replicate.
  field. apply not_0_INR. lia.
Qed.

Lemma movingAverage_window (x : list R) (n k : nat) :
  (k + 2 * n + 1 ≤ length x)%nat →
  slice (Z.of_nat n + Z.of_nat k - Z.of_nat n)
        (Z.of_nat n + Z.of_nat k + Z.of_nat n + 1) x
  = take (2 * n + 1) (drop k x).
Proof.
  intros Hk.
  destruct (slice_in_range x (Z.of_nat n + Z.of_nat k - Z.of_nat n)
              (Z.of_nat n + Z.of_nat k + Z.of_nat n + 1)) as [Hs _];
    [lia|lia|].
  rewrite Hs. f_equal; [lia|f_equal; lia].
Qed.

(** X17: for a window half-width n >= 0 the moving average has
    len(x) - 2n entries (none when the series is not longer than 2n); entry
    k is the mean of the 2n + 1 samples x[k .. k + 2n], every window is
    full, and [plot_range] lists the centres n, n + 1, ... *)
Theorem movingAverage_windows (x : list R) (n : nat) :
  let m := (length x - 2 * n)%nat in
  movingAverage x (Z.of_nat n)
  = (map (λ k, mean (take (2 * n + 1) (drop k x))) (seq 0 m),
     map (λ k, Z.of_nat (n + k)) (seq 0 m)) ∧
  ∀ k, (k < m)%nat → length (take (2 * n + 1) (drop k x)) = (2 * n + 1)%nat.
Proof.
  intros m. split.
  - unfold movingAverage, py_range.
    replace (Z.to_nat (Z.of_nat (length x) - Z.of_nat n - Z.of_nat n))
      with m by (subst m; lia).
    rewrite map_map. f_equal.
    + apply map_ext_in. intros k Hk. apply in_seq in Hk. f_equal.
      apply movingAverage_window. subst m. lia.
    + apply map_ext. intros k. lia.
  - intros k Hk. rewrite length_take, length_drop. subst m. lia.
Qed.

(** X18: the moving average of a constant series is that constant. *)
Theorem movingAverage_constant (c : R) (len n : nat) :
  (movingAverage (replicate len c) (Z.of_nat n)).1
  = replicate (len - 2 * n) c.
Proof.
  unfold movingAverage, py_range. cbn [fst]. rewrite length_replicate.
  replace (Z.to_nat (Z.of_nat len - Z.of_nat n - Z.of_nat n))
    with (len - 2 * n)%nat by lia.
  rewrite map_map.
  apply list_eq. intros i. rewrite list_lookup_fmap.
  destruct (decide (i < len - 2 * n)%nat) as [Hi|Hi].
  - rewrite lookup_seq_lt by done. rewrite lookup_replicate_2 by done.
    cbn [fmap option_fmap option_map]. f_equal.
    rewrite movingAverage_window by (rewrite length_replicate; lia).
    rewrite drop_replicate, take_replicate.
    replace ((2 * n + 1) `min` (len - (0 + i)))%nat with (S (2 * n)) by lia.
    apply mean_replicate.
  - rewrite lookup_seq_ge by lia. simpl. symmetry.
    apply lookup_replicate_None. lia.
Qed.



Example rssq_3_4 : rssq (Array2 2 [[3; 4]; [0; 0]]) = [5; 0].
Proof.
  unfold rssq. simpl. f_equal; [|f_equal].
  - replace (0 + 3 * 3 + 4 * 4) with (5 * 5) by lra.
    apply sqrt_square. lra.
  - replace (0 + 0 * 0 + 0 * 0) with 0 by lra. apply sqrt_0.
Qed.

(** ** Rounding a line for printing *)

Lemma py_position_lt (len : nat) (i : Z) (k : nat) :
  py_position len i = Some k → (k < len)%nat.
Proof.
  unfold py_position. destruct (decide _); [|done].
  intros [= <-]. destruct (i <? 0)%Z; lia.
Qed.

Section RoundListFacts.

Variable format_f : nat → R → string.

Lemma roundList_step_inv (l l1 : list entry) (j : Z * Z) :
  roundList_step format_f l j = Ok l1 →
  ∃ k e, py_position (length l) j.1 = Some k ∧ l1 = <[k := e]> l.
Proof.
  unfold roundList_step, py_getitem, py_setitem. intros H.
  destruct (py_position (length l) j.1) as [k|]; [|discriminate].
  apply bind_Ok in H as (v & _ & H).
  destruct v as [s|r]; destruct (decide _); try discriminate;
    injection H as <-; eauto.
Qed.

(** X20: [roundList] keeps the length of the line and changes only the
    positions its index names (a negative position counting from the
    end). *)
Theorem roundList_frame (l l' : list entry) (index : list (Z * Z)) :
  roundList format_f l index = Ok l' →
  length l' = length l ∧
  ∀ k, (∀ j, j ∈ index → py_position (length l) j.1 ≠ Some k) →
       l' !! k = l !! k.
Proof.
  revert l. induction index as [|j index IH]; intros l H.
  - injection H as <-. done.
  - simpl in H. apply bind_Ok in H as (l1 & Hstep & H).
    apply roundList_step_inv in Hstep as (k & e & Hk & ->).
    destruct (IH _ H) as [Hlen Hframe]. rewrite length_insert in Hlen, Hframe.
    split; [done|]. intros k' Hk'.
    rewrite Hframe by (intros j' Hj'; apply Hk'; by right).
    apply list_lookup_insert_ne. intros ->. by apply (Hk' j); [left|].
Qed.

(** X21: positions that hold the placeholder '-' are left as they are:
    an index that names only such positions returns the line unchanged,
    whatever numbers of decimal places it gives. *)
Theorem roundList_placeholders (l : list entry) (index : list (Z * Z)) :
  (∀ j, j ∈ index → py_getitem l j.1 = Ok (EStr "-")) →
  roundList format_f l index = Ok l.
Proof.
  induction index as [|j index IH]; intros H; [done|].
  simpl. unfold roundList_step at 1. rewrite (H j) by left.
  cbn [mbind result_bind]. destruct (decide ("-" = "-")) as [_|?]; [|done].
  pose proof (H j ltac:(left)) as Hj.
  unfold py_getitem, py_setitem in *.
  destruct (py_position (length l) j.1) as [k|]; [|discriminate].
  apply item_Ok in Hj. rewrite list_insert_id by done.
  cbn [mbind result_bind]. apply IH. intros j' Hj'. apply H. by right.
Qed.

(** X22: [roundList] cannot be applied twice: once a number has been
    replaced by its formatted string, rounding the same position again
    raises ValueError. *)
Theorem roundList_twice (l : list entry) (p nd : Z) (r : R) :
  py_getitem l p = Ok (ENum r) → (0 ≤ nd)%Z →
  format_f (Z.to_nat nd) r ≠ "-" →
  ∃ l', roundList format_f l [(p, nd)] = Ok l' ∧
        py_getitem l' p = Ok (EStr (format_f (Z.to_nat nd) r)) ∧
        roundList format_f l' [(p, nd)] = Raise ValueError.
Proof.
  intros Hget Hnd Hfmt.
  unfold py_getitem in Hget.
  destruct (py_position (length l) p) as [k|] eqn:Hk; [|discriminate].
  pose proof (py_position_lt _ _ _ Hk) as Hlt.
  exists (<[k := EStr (format_f (Z.to_nat nd) r)]> l).
  assert (Hget' : py_getitem (<[k := EStr (format_f (Z.to_nat nd) r)]> l) p
                  = Ok (EStr (format_f (Z.to_nat nd) r))).
  { unfold py_getitem. rewrite length_insert, Hk. apply item_Ok.
    by apply list_lookup_insert_eq. }
  split; [|split; [exact Hget'|]].
  - simpl. unfold roundList_step, py_getitem, py_setitem. cbn [fst snd].
    rewrite Hk, Hget. cbn [mbind result_bind].
    destruct (decide (nd < 0)%Z); [lia|]. done.
  - simpl. unfold roundList_step. cbn [fst snd]. rewrite Hget'.
    cbn [mbind result_bind]. by destruct (decide _).
Qed.

End RoundListFacts.

Lemma roundList_frame_witness :
  roundList format_1_50 [ENum 1.5; EStr "-"; ENum 7] [(0, 2); (-2, 3)]%Z
  = Ok [EStr "1.50"; EStr "-"; ENum 7] ∧
  length [EStr "1.50"; EStr "-"; ENum 7]
  = length [ENum 1.5; EStr "-"; ENum 7] ∧
  ∀ k, (∀ j, j ∈ [(0, 2); (-2, 3)]%Z →
             py_position (length [ENum 1.5; EStr "-"; ENum 7]) j.1 ≠ Some k) →
       [EStr "1.50"; EStr "-"; ENum 7] !! k
       = [ENum 1.5; EStr "-"; ENum 7] !! k.
Proof.
  assert (H : roundList format_1_50 [ENum 1.5; EStr "-"; ENum 7]
                [(0, 2); (-2, 3)]%Z
              = Ok [EStr "1.50"; EStr "-"; ENum 7]) by reflexivity.
  split; [exact H|].
  exact (roundList_frame format_1_50 _ _ _ H).
Defined.

Lemma roundList_placeholders_witness :
  roundList format_1_50 [ENum 1.5; EStr "-"; ENum 7] [(1, 2); (-2, -1)]%Z
  = Ok [ENum 1.5; EStr "-"; ENum 7].
Proof.
  apply (roundList_placeholders format_1_50).
  intros j Hj.
  apply elem_of_cons in Hj as [->|Hj]; [reflexivity|].
  apply elem_of_cons in Hj as [->|Hj]; [reflexivity|].
  by apply elem_of_nil in Hj.
Defined.

Lemma roundList_twice_witness :
  ∃ l', roundList format_1_50 [ENum 1.5; EStr "-"] [(0, 2)]%Z = Ok l' ∧
        py_getitem l' 0 = Ok (EStr (format_1_50 (Z.to_nat 2) 1.5)) ∧
        roundList format_1_50 l' [(0, 2)]%Z = Raise ValueError.
Proof.
  apply (roundList_twice format_1_50 [ENum 1.5; EStr "-"] 0 2 1.5).
  - reflexivity.
  - lia.
  - discriminate.
Defined.

(** ** Allan deviation *)

Lemma slice_same {A} (l : list A) (k : Z) : slice k k l = [].
Proof. unfold slice. by rewrite Z.sub_diag. Qed.

Lemma Zfloor_quotient (a b : Z) :
  (0 ≤ a)%Z → (0 < b)%Z → Zfloor (IZR a / IZR b) = (a / b)%Z.
Proof.
  intros Ha Hb. rewrite <- (trunc_quotient a b Ha Hb). unfold trunc.
  destruct (decide _) as [Hneg|_]; [|done].
  exfalso. apply (Rlt_not_le _ _ Hneg).
  apply Rmult_le_pos; [by apply IZR_le|].
  left. apply Rinv_0_lt_compat. by apply IZR_lt.
Qed.

Lemma foldr_Rplus_snoc (l : list R) (a : R) :
  foldr Rplus 0 (l ++ [a]) = foldr Rplus 0 l + a.
Proof. induction l as [|b l IH]; simpl; [lra|]. rewrite IH. lra. Qed.

Lemma squared_steps_snoc (ms : list R) (b a : R) :
  squared_steps (ms ++ [b] ++ [a]) = squared_steps (ms ++ [b]) + (a - b) ^ 2.
Proof.
  unfold squared_steps. induction ms as [|m ms IH].
  - simpl. lra.
  - destruct ms as [|m' ms]; [simpl; lra|].
    cbn [app tail zip_with foldr] in *. rewrite IH. lra.
Qed.

Lemma py_getitem_last {A} (l : list A) (a : A) :
  py_getitem (l ++ [a]) (-1) = Ok a.
Proof.
  unfold py_getitem, py_position. rewrite length_app. cbn [length].
  change (-1 <? 0)%Z with true. cbv iota.
  destruct (decide _) as [_|Hn]; [|lia].
  apply item_Ok.
  replace (Z.to_nat (-1 + Z.of_nat (length l + 1))) with (length l) by lia.
  by rewrite list_lookup_middle.
Qed.

Lemma py_getitem_last_but_one {A} (l : list A) (b a : A) :
  py_getitem (l ++ [b] ++ [a]) (-2) = Ok b.
Proof.
  unfold py_getitem, py_position. rewrite !length_app. cbn [length].
  change (-2 <? 0)%Z with true. cbv iota.
  destruct (decide _) as [_|Hn]; [|lia].
  apply item_Ok.
  replace (Z.to_nat (-2 + Z.of_nat (length l + (1 + 1)))) with (length l)
    by lia.
  change ([b] ++ [a]) with [b; a]. by rewrite list_lookup_middle.
Qed.

Lemma interval_means_S (data : list R) (f m : nat) :
  interval_means data f (S m)
  = interval_means data f m ++ [mean (take f (drop (m * f) data))].
Proof. unfold interval_means. by rewrite seq_S, map_app. Qed.

Section AllanRun.

Variable data : list R.
Variable f : nat.
Hypothesis f_pos : (0 < f)%nat.

Lemma allan_body_full (j : nat) :
  (S j * f ≤ length data)%nat →
  allan_body data (Z.of_nat f) (allan_after data f j) = Ok (allan_after data f (S j)).
Proof.
  intros Hj. unfold allan_body, allan_after. cbn [al_k al_int al_s al_it].
  destruct (slice_in_range data (Z.of_nat (j * f))
              (Z.of_nat (j * f) + Z.of_nat f)) as [Hs Hl]; [lia|lia|].
  replace (Z.to_nat (Z.of_nat (j * f) + Z.of_nat f - Z.of_nat (j * f)))
    with f in Hs, Hl by lia.
  rewrite Nat2Z.id in Hs.
  destruct (decide _) as [_|Hn]; [|lia].
  rewrite Hs. rewrite <- interval_means_S.
  assert (Hsum :
    (if decide (Z.of_nat j > 0)%Z
     then a ← py_getitem (interval_means data f (S j)) (-1);
          b ← py_getitem (interval_means data f (S j)) (-2);
          Ok (squared_steps (interval_means data f j) + (a - b) ^ 2)
     else Ok (squared_steps (interval_means data f j)))
    = Ok (squared_steps (interval_means data f (S j)))).
  { destruct (decide _) as [Hp|Hp].
    - destruct j as [|j]; [lia|].
      rewrite (interval_means_S data f (S j)), (interval_means_S data f j).
      rewrite <- (assoc_L (++)).
      rewrite (assoc_L (++) _ [_] [_]) at 1. rewrite py_getitem_last.
      cbn [mbind result_bind]. rewrite py_getitem_last_but_one.
      cbn [mbind result_bind]. by rewrite squared_steps_snoc.
    - assert (j = 0)%nat as -> by lia. reflexivity. }
  rewrite Hsum. cbn [mbind result_bind]. do 2 f_equal; lia.
Qed.

Lemma allan_body_partial (j : nat) :
  (j * f < length data)%nat → (length data < S j * f)%nat →
  ∃ st, allan_body data (Z.of_nat f) (allan_after data f j) = Ok st ∧
        al_int st = interval_means data f j ∧
        al_s st = squared_steps (interval_means data f j) ∧
        (Z.of_nat (length data) ≤ al_k st)%Z.
Proof.
  intros Hlo Hhi. unfold allan_body, allan_after. cbn [al_k al_int al_s al_it].
  assert (Hlen : (length (slice (Z.of_nat (j * f))
                            (Z.of_nat (j * f) + Z.of_nat f) data) < f)%nat).
  { unfold slice, slice_index.
    destruct (Z.ltb_spec (Z.of_nat (j * f)) 0); [lia|].
    destruct (Z.ltb_spec (Z.of_nat (j * f) + Z.of_nat f) 0); [lia|].
    rewrite length_take, length_drop. lia. }
  destruct (decide _) as [Hn|_]; [lia|].
  cbn [mbind result_bind]. eexists. split; [reflexivity|].
  cbn [al_k al_int al_s]. repeat split. lia.
Qed.

(** The loop from the state after [j] full intervals: it never raises;
    when the passes suffice it ends with the means of all
    [length data / f] full intervals and the sum of their squared steps. *)
Lemma allan_while_from (fuel j : nat) :
  (j ≤ length data / f)%nat →
  match allan_while fuel data (Z.of_nat f) (allan_after data f j) with
  | None => (fuel ≤ length data / f - j)%nat
  | Some (Ok st) =>
      al_int st = interval_means data f (length data / f) ∧
      al_s st = squared_steps (interval_means data f (length data / f))
  | Some (Raise _) => False
  end.
Proof.
  pose proof (Nat.div_mod_eq (length data) f) as Hdm.
  pose proof (Nat.mod_upper_bound (length data) f ltac:(lia)) as Hmod.
  set (M := (length data / f)%nat) in *.
  revert j. induction fuel as [|fuel IH]; intros j Hj.
  - cbn [allan_while]. destruct (decide _) as [Hk|Hk]; [lia|].
    cbn [allan_after al_k al_int al_s] in *.
    assert (j = M) as -> by nia. done.
  - cbn [allan_while]. destruct (decide _) as [Hk|Hk].
    + cbn [allan_after al_k] in Hk.
      destruct (decide (j < M)%nat) as [Hlt|Hge].
      * rewrite allan_body_full by nia.
        specialize (IH (S j) ltac:(lia)).
        destruct (allan_while fuel data (Z.of_nat f) (allan_after data f (S j)))
          as [[st|e]|]; [done|done|lia].
      * assert (j = M) as -> by lia.
        destruct (allan_body_partial M) as (st & Hst & Hi & Hs & Hk');
          [lia|nia|].
        rewrite Hst. destruct fuel; cbn [allan_while];
          (destruct (decide _) as [?|_]; [lia|done]).
    + cbn [allan_after al_k al_int al_s] in *.
      assert (j = M) as -> by nia. done.
Qed.

End AllanRun.
Lemma py_getitem_negative {A} (l : list A) (i : Z) :
  (- Z.of_nat (length l) ≤ i < 0)%Z → ∃ a, py_getitem l i = Ok a.
Proof.
  intros Hi. unfold py_getitem, py_position.
  destruct (Z.ltb_spec i 0); [|lia].
  destruct (decide _) as [_|?]; [|lia].
  destruct (lookup_lt_is_Some_2 l (Z.to_nat (i + Z.of_nat (length l))))
    as [a Ha]; [lia|].
  exists a. by apply item_Ok.
Qed.

Lemma length_interval_means (data : list R) (f m : nat) :
  length (interval_means data f m) = m.
Proof. unfold interval_means. by rewrite length_map, length_seq. Qed.

(** With an interval length that is not positive the loop never leaves a
    non-empty series: the position never advances. *)
Lemma allan_while_stuck (data : list R) (f : Z) (fuel : nat)
    (st : allan_state) :
  data ≠ [] → (f ≤ 0)%Z → (al_k st ≤ 0)%Z → (0 ≤ al_it st)%Z →
  (f = 0%Z → Z.of_nat (length (al_int st)) = al_it st) →
  allan_while fuel data f st = None.
Proof.
  intros Hd Hf. revert st. induction fuel as [|fuel IH]; intros st Hk Hit Hint.
  - cbn [allan_while]. destruct (decide _) as [_|Hn]; [done|].
    destruct data; [done|]. simpl in Hn. lia.
  - cbn [allan_while]. destruct (decide _) as [_|Hn];
      [|destruct data; [done|]; simpl in Hn; lia].
    unfold allan_body.
    destruct (decide (Z.of_nat _ = f)) as [Hlen|Hlen].
    + assert (f = 0%Z) as -> by lia. specialize (Hint eq_refl).
      destruct (decide (al_it st > 0)%Z) as [Hpos|Hpos].
      * destruct (py_getitem_negative (al_int st ++ [mean
                    (slice (al_k st) (al_k st + 0) data)]) (-1)) as [a Ha];
          [rewrite length_app; simpl; lia|].
        destruct (py_getitem_negative (al_int st ++ [mean
                    (slice (al_k st) (al_k st + 0) data)]) (-2)) as [b Hb];
          [rewrite length_app; simpl; lia|].
        rewrite Ha. cbn [mbind result_bind]. rewrite Hb.
        cbn [mbind result_bind]. apply IH; cbn [al_k al_it al_int]; try lia.
        intros _. rewrite length_app. simpl. lia.
      * cbn [mbind result_bind]. apply IH; cbn [al_k al_it al_int]; try lia.
        intros _. rewrite length_app. simpl. lia.
    + cbn [mbind result_bind]. apply IH; cbn [al_k al_it al_int]; try lia.
      intros ->. rewrite Z.add_0_r, slice_same in Hlen. done.
Qed.

Lemma allan_while_no_raise (data : list R) (f : Z) (fuel : nat) e :
  allan_while fuel data f allan_start ≠ Some (Raise e).
Proof.
  destruct (decide (0 < f)%Z) as [Hf|Hf].
  - pose proof (allan_while_from data (Z.to_nat f) ltac:(lia) fuel 0
                  ltac:(lia)) as H.
    rewrite Z2Nat.id in H by lia.
    change (allan_after data (Z.to_nat f) 0) with allan_start in H.
    intros Heq. by rewrite Heq in H.
  - destruct data as [|d data]; [by destruct fuel|].
    rewrite allan_while_stuck; try done; lia.
Qed.

(** X23: for interval lengths that are all positive and enough passes,
    [allan] returns, in the order of tau, one entry for every interval
    length with at least two full intervals and none for the others: the
    deviation sqrt(sum of squared steps of the interval means / (2 (M - 1))),
    its error v / sqrt(M) and the count M - 1, where M = len(data) // f. *)
Theorem allan_values (data : list R) (tau : list nat) (fuel : nat) :
  Forall (λ f, 0 < f)%nat tau → (length data < fuel)%nat →
  allan fuel data (Z.of_nat <$> tau)
  = Some (Ok (concat (map (allan_of data) tau))).
Proof.
  intros Htau Hfuel. induction Htau as [|f tau Hf _ IH]; [done|].
  cbn [fmap list_fmap allan map concat]. rewrite IH.
  pose proof (allan_while_from data f Hf fuel 0 ltac:(lia)) as H.
  change (allan_after data f 0) with allan_start in H.
  assert (HM : (length data / f ≤ length data)%nat)
    by (apply Nat.Div0.div_le_upper_bound; nia).
  destruct (allan_while fuel data (Z.of_nat f) allan_start) as [[st|e]|];
    [|done|lia].
  destruct H as [Hint Hs]. do 3 f_equal.
  unfold allan_entry, allan_of. rewrite Hint, Hs.
  rewrite !length_interval_means.
  rewrite INR_IZR_INZ, Zfloor_quotient by lia.
  rewrite <- Nat2Z.inj_div, <- INR_IZR_INZ.
  destruct (decide (_ > 0)%Z), (decide (2 ≤ _)%nat); try lia; done.
Qed.

Lemma allan_values_witness :
  allan 5 [1; 3; 5; 7] (Z.of_nat <$> [2; 3]%nat)
  = Some (Ok (concat (map (allan_of [1; 3; 5; 7]) [2; 3]%nat))).
Proof.
  apply (allan_values [1; 3; 5; 7] [2; 3]%nat 5).
  - repeat constructor.
  - simpl. lia.
Defined.

(** X24: if tau holds an interval length that is zero or negative and
    the series is not empty, [allan] never returns, however many passes it
    is given. *)
Theorem allan_never_returns (data : list R) (tau : list Z) (f : Z)
    (fuel : nat) :
  data ≠ [] → f ∈ tau → (f ≤ 0)%Z → allan fuel data tau = None.
Proof.
  intros Hd Hin Hf. induction tau as [|g tau IH]; [by apply elem_of_nil in Hin|].
  cbn [allan].
  destruct (allan_while fuel data g allan_start) as [[st|e]|] eqn:Hw;
    [|by apply allan_while_no_raise in Hw|done].
  apply elem_of_cons in Hin as [<-|Hin].
  - rewrite allan_while_stuck in Hw; done.
  - by rewrite IH.
Qed.

Lemma allan_never_returns_witness :
  allan 1000 [1; 3; 5; 7] [2; 0; 3]%Z = None.
Proof.
  apply (allan_never_returns [1; 3; 5; 7] [2; 0; 3]%Z 0 1000).
  - discriminate.
  - set_solver.
  - lia.
Defined.

(** The witness evaluated: two full intervals of two samples give one
    entry, a single full interval of three samples gives none. *)
Example allan_of_example :
  concat (map (allan_of [1; 3; 5; 7]) [2; 3]%nat)
  = [(sqrt 8, sqrt 8 / sqrt 2, 1%Z)].
Proof.
  unfold allan_of, interval_means, squared_steps, mean. simpl.
  change (Z.of_nat 2 - 1)%Z with 1%Z. change (2 * 1)%Z with 2%Z.
  replace (1 / 2 * _) with 8 by lra. by replace (1 + 1) with 2 by lra.
Qed.

(** ** The project file *)

Lemma foldM_app {A B} (f : B → A → result B) (b : B) (l1 l2 : list A) :
  foldM f b (l1 ++ l2) = foldM f b l1 ≫= λ b', foldM f b' l2.
Proof.
  revert b. induction l1 as [|a l1 IH]; intros b; [done|].
  simpl. destruct (f b a); simpl; [apply IH|done].
Qed.

Lemma foldM_unchanged {A B} (f : B → A → result B) (b : B) (l : list A) :
  (∀ a, a ∈ l → f b a = Ok b) → foldM f b l = Ok b.
Proof.
  induction l as [|a l IH]; intros H; [done|].
  simpl. rewrite H by left. simpl. apply IH. intros a' Ha'. apply H. by right.
Qed.

Lemma index_errors_bind {A B} (m : result A) (f : A → result B) :
  index_errors m → (∀ a, index_errors (f a)) → index_errors (m ≫= f).
Proof.
  intros Hm Hf e. destruct m as [a|e']; simpl.
  - apply Hf.
  - intros [= <-]. by apply Hm.
Qed.

Lemma index_errors_Ok {A} (a : A) : index_errors (Ok a).
Proof. intros e. discriminate. Qed.

Lemma index_errors_foldM {A B} (f : B → A → result B) (b : B) (l : list A) :
  (∀ b a, index_errors (f b a)) → index_errors (foldM f b l).
Proof.
  intros Hf. revert b. induction l as [|a l IH]; intros b.
  - apply index_errors_Ok.
  - simpl. apply index_errors_bind; [apply Hf|apply IH].
Qed.

Lemma index_errors_getitem {A} (l : list A) (i : Z) :
  index_errors (py_getitem l i).
Proof.
  intros e. unfold py_getitem, item.
  destruct (py_position _ _) as [k|]; [destruct (l !! k)|]; congruence.
Qed.

Lemma index_errors_rule_step file i ds r :
  index_errors (pf_rule_step file i ds r).
Proof.
  unfold pf_rule_step.
  apply index_errors_bind; [apply index_errors_getitem|]. intros t.
  destruct (decide _); [|apply index_errors_Ok].
  apply index_errors_bind.
  - induction (pf_guards r) as [|[off tok|n] gs IH]; simpl.
    + apply index_errors_Ok.
    + apply index_errors_bind; [apply index_errors_getitem|]. intros t'.
      destruct (decide _); [done|apply index_errors_Ok].
    + destruct (decide _); [done|apply index_errors_Ok].
  - intros [|]; [|apply index_errors_Ok].
    apply index_errors_foldM. intros ds' s. unfold pf_assign.
    apply index_errors_bind; [apply index_errors_getitem|].
    intros v. apply index_errors_Ok.
Qed.

Lemma index_errors_index_step file ds i :
  index_errors (pf_index_step file ds i).
Proof.
  apply index_errors_foldM. intros. apply index_errors_rule_step.
Qed.

Lemma py_getitem_nat {A} (l : list A) (i : nat) (a : A) :
  l !! i = Some a → py_getitem l (Z.of_nat i) = Ok a.
Proof.
  intros H. pose proof (lookup_lt_Some _ _ _ H) as Hlt.
  unfold py_getitem, py_position.
  destruct (Z.ltb_spec (Z.of_nat i) 0); [lia|].
  destruct (decide _) as [_|?]; [|lia].
  rewrite Nat2Z.id. by apply item_Ok.
Qed.

Lemma py_getitem_beyond {A} (l : list A) (i : Z) :
  (Z.of_nat (length l) ≤ i)%Z → py_getitem l i = Raise IndexError.
Proof.
  intros H. unfold py_getitem, py_position.
  destruct (Z.ltb_spec i 0); [lia|].
  destruct (decide _) as [?|_]; [lia|done].
Qed.

Lemma pf_rule_step_other file i ds r t :
  py_getitem file i = Ok t → t ≠ pf_key r →
  pf_rule_step file i ds r = Ok ds.
Proof.
  intros Ht Hne. unfold pf_rule_step. rewrite Ht. simpl.
  by destruct (decide _).
Qed.

Lemma pf_index_step_other file ds i t :
  py_getitem file i = Ok t → t ∉ pf_keys →
  pf_index_step file ds i = Ok ds.
Proof.
  intros Ht Hk. unfold pf_index_step. apply foldM_unchanged.
  intros r Hr. apply (pf_rule_step_other _ _ _ _ t Ht).
  intros ->. apply Hk. unfold pf_keys. by apply list_elem_of_fmap_2.
Qed.

Lemma py_range_0 (n : nat) :
  py_range 0 (Z.of_nat n) = Z.of_nat <$> seq 0 n.
Proof.
  unfold py_range. rewrite Z.sub_0_r, Nat2Z.id. by apply map_ext.
Qed.

(** X25: a token list that holds none of the words that open an [if]
    yields four empty dictionaries. *)
Theorem createDictionary_no_keys (file : list string) :
  (∀ t, t ∈ file → t ∉ pf_keys) →
  createDictionary file = Ok pf_empty.
Proof.
  intros H. unfold createDictionary. apply foldM_unchanged.
  intros i Hi. rewrite py_range_0 in Hi.
  apply list_elem_of_fmap in Hi as (k & -> & Hk).
  apply elem_of_seq in Hk.
  destruct (lookup_lt_is_Some_2 file k) as [t Ht]; [lia|].
  apply (pf_index_step_other _ _ _ t); [by apply py_getitem_nat|].
  apply H. by apply list_elem_of_lookup_2 with k.
Qed.

Lemma createDictionary_no_keys_witness :
  createDictionary ["Micro-g"; "LaCoste"; "g9"; "Processing"]
  = Ok pf_empty.
Proof.
  apply (createDictionary_no_keys ["Micro-g"; "LaCoste"; "g9"; "Processing"]).
  intros t Ht. apply (bool_decide_unpack _).
  repeat (apply elem_of_cons in Ht as [->|Ht]; [by vm_compute|]).
  by apply elem_of_nil in Ht.
Defined.
Lemma foldM_filter {A B} (f : B → A → result B) (P : A → Prop)
    `{!∀ a, Decision (P a)} (b : B) (l : list A) :
  (∀ b a, ¬ P a → f b a = Ok b) →
  foldM f b l = foldM f b (filter P l).
Proof.
  intros Hskip. revert b. induction l as [|a l IH]; intros b; [done|].
  rewrite filter_cons. destruct (decide (P a)) as [Ha|Ha]; simpl.
  - destruct (f b a); simpl; [apply IH|done].
  - rewrite Hskip by done. simpl. apply IH.
Qed.

Lemma foldM_invariant {A B} (f : B → A → result B) (P : B → Prop)
    (b b' : B) (l : list A) :
  (∀ b a b', P b → f b a = Ok b' → P b') →
  P b → foldM f b l = Ok b' → P b'.
Proof.
  intros Hstep. revert b. induction l as [|a l IH]; intros b Hb H.
  - by injection H as <-.
  - simpl in H. apply bind_Ok in H as (b1 & H1 & H). eauto.
Qed.

(** Only the [if]s opened by the token at [i] can act at that index. *)
Lemma pf_index_step_key file ds i t :
  py_getitem file i = Ok t →
  pf_index_step file ds i
  = foldM (pf_rule_step file i) ds
          (filter (λ r, pf_key r = t) createDictionary_rules).
Proof.
  intros Ht. unfold pf_index_step. apply foldM_filter.
  intros ds' r Hne. apply (pf_rule_step_other _ _ _ _ t Ht). congruence.
Qed.

(** Every [if] without a further condition reads a token after the
    current one first. *)
Lemma createDictionary_rules_unguarded :
  Forall (λ r, pf_guards r = [] →
               match pf_sets r with
               | s :: _ => (1 ≤ s.2)%Z
               | [] => False
               end) createDictionary_rules.
Proof.
  unfold createDictionary_rules.
  repeat (apply Forall_cons_2;
          [cbn [pf_guards pf_sets]; intros H;
           first [discriminate H | by vm_compute]|]).
  apply Forall_nil_2.
Qed.

(** X26: a token list that ends with a word opening an unconditional
    [if] (such as Code:, Lat:, Date: or Gravity:) makes the method raise
    IndexError: the value after the word is missing. *)
Theorem createDictionary_truncated (file : list string) (k : string) :
  last file = Some k → k ∈ pf_unguarded_keys →
  createDictionary file = Raise IndexError.
Proof.
  intros Hlast Hk.
  apply last_Some in Hlast as [front ->].
  unfold pf_unguarded_keys in Hk.
  apply list_elem_of_fmap in Hk as (r & -> & Hr).
  apply list_elem_of_filter in Hr as [Hg Hr].
  pose proof createDictionary_rules_unguarded as Htab.
  rewrite Forall_forall in Htab. specialize (Htab r Hr Hg).
  destruct (pf_sets r) as [|s ss] eqn:Hsets; [done|].
  apply list_elem_of_split in Hr as (rs1 & rs2 & Hrules).
  assert (Hget : py_getitem (front ++ [pf_key r]) (Z.of_nat (length front))
                 = Ok (pf_key r)).
  { apply py_getitem_nat. by rewrite list_lookup_middle. }
  assert (Hrule : ∀ ds, pf_rule_step (front ++ [pf_key r])
                          (Z.of_nat (length front)) ds r = Raise IndexError).
  { intros ds. unfold pf_rule_step. rewrite Hget. cbn [mbind result_bind].
    destruct (decide (pf_key r = pf_key r)) as [_|?]; [|done].
    rewrite Hg, Hsets.
    cbn [pf_guards_hold mbind result_bind mret result_ret foldM].
    assert (Hset : pf_assign (front ++ [pf_key r]) (Z.of_nat (length front))
                     ds s = Raise IndexError).
    { unfold pf_assign.
      rewrite py_getitem_beyond; [done|]. rewrite length_app. simpl. lia. }
    by rewrite Hset. }
  assert (Hstep : ∀ ds, pf_index_step (front ++ [pf_key r]) ds
                          (Z.of_nat (length front)) = Raise IndexError).
  { intros ds. unfold pf_index_step. rewrite Hrules, foldM_app.
    destruct (foldM _ ds rs1) as [ds1|e] eqn:H1; cbn [mbind result_bind foldM].
    - by rewrite Hrule.
    - f_equal. refine (index_errors_foldM _ _ _ _ _ H1).
      intros. apply index_errors_rule_step. }
  unfold createDictionary. rewrite py_range_0, length_app. simpl.
  rewrite Nat.add_1_r, seq_S, fmap_app, foldM_app. simpl.
  destruct (foldM _ pf_empty _) as [ds|e] eqn:H1; simpl.
  - by rewrite Hstep.
  - f_equal. refine (index_errors_foldM _ _ _ _ _ H1).
    intros. apply index_errors_index_step.
Qed.

Lemma createDictionary_truncated_witness :
  createDictionary ["Station"; "Lat:"; "49.9"; "Code:"] = Raise IndexError.
Proof.
  apply (createDictionary_truncated ["Station"; "Lat:"; "49.9"; "Code:"]
           "Code:").
  - reflexivity.
  - apply (bool_decide_unpack _). by vm_compute.
Defined.

(** X27: the look-behind of the first token wraps around to the end of
    the list: a list that begins with Name: and ends with Data, with no
    other word that opens an [if], stores its second token as the station
    name. *)
Theorem createDictionary_wraps (v : string) (mid : list string) :
  v ∉ pf_keys → (∀ t, t ∈ mid → t ∉ pf_keys) →
  createDictionary ("Name:" :: v :: mid ++ ["Data"])
  = Ok (pf_store stationData "name" v pf_empty).
Proof.
  intros Hv Hmid. unfold createDictionary.
  set (file := "Name:" :: v :: mid ++ ["Data"]).
  rewrite py_range_0.
  change (length file) with (S (length (v :: mid ++ ["Data"]))).
  cbn [seq fmap list_fmap foldM].
  assert (H0 : py_getitem file (Z.of_nat 0) = Ok "Name:")
    by (by apply py_getitem_nat).
  assert (H1 : py_getitem file (Z.of_nat 0 + 1) = Ok v)
    by (by apply (py_getitem_nat file 1)).
  assert (Hl : py_getitem file (Z.of_nat 0 + -1) = Ok "Data").
  { change file with (("Name:" :: v :: mid) ++ ["Data"]).
    apply py_getitem_last. }
  rewrite (pf_index_step_key _ _ _ _ H0).
  change (filter _ createDictionary_rules)
    with [PfRule "Name:" [File_is (-1) "Data"] [(stationData, "name", 1%Z)]].
  cbn [foldM]. unfold pf_rule_step at 1. rewrite H0.
  cbn [mbind result_bind pf_key pf_guards pf_sets pf_guards_hold].
  destruct (decide ("Name:" = "Name:")) as [_|?]; [|done].
  rewrite Hl. cbn [mbind result_bind].
  destruct (decide ("Data" = "Data")) as [_|?]; [|done].
  cbn [mbind result_bind foldM]. unfold pf_assign at 1. cbn [fst snd].
  rewrite H1. cbn [mbind result_bind].
  apply foldM_unchanged. intros i Hi.
  apply list_elem_of_fmap in Hi as (k & -> & Hk). apply elem_of_seq in Hk.
  destruct (lookup_lt_is_Some_2 file k) as [t Ht]; [simpl in *; lia|].
  apply (pf_index_step_other _ _ _ t); [by apply py_getitem_nat|].
  destruct k as [|k]; [lia|]. simpl in Ht.
  destruct k as [|k]; [by injection Ht as <-|]. simpl in Ht.
  apply list_elem_of_lookup_2 in Ht.
  apply elem_of_app in Ht as [Ht|Ht]; [by apply Hmid|].
  apply list_elem_of_singleton in Ht as ->.
  apply (bool_decide_unpack _). by vm_compute.
Qed.

Lemma createDictionary_wraps_witness :
  createDictionary ("Name:" :: "Pecny" :: ["Station"] ++ ["Data"])
  = Ok (pf_store stationData "name" "Pecny" pf_empty).
Proof.
  apply (createDictionary_wraps "Pecny" ["Station"]).
  - apply (bool_decide_unpack _). by vm_compute.
  - intros t Ht. apply list_elem_of_singleton in Ht as ->.
    apply (bool_decide_unpack _). by vm_compute.
Defined.

Lemma pf_select_store d d' key key' v w ds :
  pf_select d (pf_store d' key' v ds) !! key = Some w →
  w = v ∨ pf_select d ds !! key = Some w.
Proof.
  destruct d, d'; cbn [pf_select pf_store pf_station pf_instrument
                       pf_processing pf_gravity]; intros H;
    try (by right);
    (destruct (decide (key' = key)) as [->|Hne];
     [rewrite lookup_insert_eq in H; left; congruence
     |rewrite lookup_insert_ne in H by done; by right]).
Qed.

(** X28: whatever the method stores is a token of the file: every value
    of the four dictionaries occurs in the token list. *)
Theorem createDictionary_values (file : list string) (ds : pf_dicts) :
  createDictionary file = Ok ds →
  ∀ d key v, pf_select d ds !! key = Some v → v ∈ file.
Proof.
  set (P := λ ds : pf_dicts,
         ∀ d key v, pf_select d ds !! key = Some v → v ∈ file).
  intros H. refine (foldM_invariant _ P pf_empty ds _ _ _ H).
  - intros ds1 i ds2 HP Hi.
    refine (foldM_invariant _ P ds1 ds2 _ _ HP Hi).
    intros ds3 r ds4 HP3 Hr. unfold pf_rule_step in Hr.
    apply bind_Ok in Hr as (t & _ & Hr).
    destruct (decide _); [|by injection Hr as <-].
    apply bind_Ok in Hr as ([|] & _ & Hr); [|by injection Hr as <-].
    refine (foldM_invariant _ P ds3 ds4 _ _ HP3 Hr).
    intros ds5 s ds6 HP5 Hs. unfold pf_assign in Hs.
    apply bind_Ok in Hs as (w & Hw & Hs). injection Hs as <-.
    assert (Hin : w ∈ file).
    { unfold py_getitem in Hw. destruct (py_position _ _); [|done].
      apply item_Ok in Hw. by apply list_elem_of_lookup_2 in Hw. }
    intros d key v' Hlook.
    apply pf_select_store in Hlook as [->|Hlook]; [done|].
    by apply (HP5 d key v').
  - intros d key v Hl. destruct d; cbn in Hl; by rewrite lookup_empty in Hl.
Qed.

Lemma createDictionary_values_witness :
  createDictionary ("Name:" :: "Pecny" :: ["Station"] ++ ["Data"])
  = Ok (pf_store stationData "name" "Pecny" pf_empty) ∧
  pf_select stationData (pf_store stationData "name" "Pecny" pf_empty)
    !! "name" = Some "Pecny" ∧
  "Pecny" ∈ "Name:" :: "Pecny" :: ["Station"] ++ ["Data"].
Proof.
  assert (H : createDictionary ("Name:" :: "Pecny" :: ["Station"] ++ ["Data"])
              = Ok (pf_store stationData "name" "Pecny" pf_empty))
    by (by vm_compute).
  split; [exact H|]. split; [reflexivity|].
  apply (createDictionary_values _ _ H stationData "name" "Pecny").
  reflexivity.
Defined.
